(** * Trilinos fragments: a shallow embedding and its properties

    The development follows the source files one by one:
    - the Teuchos unit-test harness as far as the panzer test file uses it,
      and the five unit tests of [tUniqueGlobalIndexerUtilities.cpp];
    - [Zoltan2::MappingProblem] ([solve], [createMappingProblem]);
    - the captured zdrive log of the RIB run;
    - [Tpetra::FECrsMatrix] ([operator=], [switchActiveCrsMatrix]);
    - the [XROL::Objective] interface.

    Part I holds the definitions, Part II the lemmas and theorems. *)

From Stdlib Require Import ZArith String Ascii List Bool Lia.
From stdpp Require Import gmap strings list.

Local Open Scope Z_scope.

(* ===================================================================== *)
(** * Part I: definitions *)
(* ===================================================================== *)

(** ** Teuchos: the unit-test harness

    The macros [TEUCHOS_UNIT_TEST], [TEUCHOS_ASSERT], [TEST_EQUALITY] and
    [TEST_COMPARE] come from Teuchos headers that are not among the
    sources; they are taken with the meaning the test file relies on.  A
    test body runs over the harness state: the [success] flag that the
    [TEST_*] macros clear on a failed comparison, and the comparisons
    evaluated so far.  A comparison that fails does not stop the test;
    [TEUCHOS_ASSERT] throws when its condition is false.  Reading a
    [std::vector] past its end and dereferencing an end iterator have no
    defined behaviour. *)
Module Teuchos.

Inductive Exn : Type :=
| logic_error (line : nat) (test : string)
    (* thrown by a TEUCHOS_ASSERT of the test file, at that source line *)
| library_error (what : string).
    (* thrown by a routine that is called from the test file *)

Record TestState : Type := mkTestState {
  success : bool;
  evaluated : list (Z * Z)
}.

Definition fresh : TestState := mkTestState true [].

Inductive Outcome (A : Type) : Type :=
| Done (a : A) (s : TestState)
| Threw (e : Exn) (s : TestState)
| Undefined.
Arguments Done {A} a s.
Arguments Threw {A} e s.
Arguments Undefined {A}.

Definition Test (A : Type) : Type := TestState -> Outcome A.

Definition ret {A} (a : A) : Test A := fun s => Done a s.

Definition bind {A B} (m : Test A) (k : A -> Test B) : Test B :=
  fun s =>
    match m s with
    | Done a s' => k a s'
    | Threw e s' => Threw e s'
    | Undefined => Undefined
    end.

(** What a library routine hands back: a value, or the exception it threw. *)
Inductive Result (A : Type) : Type :=
| Ok (a : A)
| Raise (what : string).
Arguments Ok {A} a.
Arguments Raise {A} what.

Definition call {A} (r : Result A) : Test A :=
  fun s =>
    match r with
    | Ok a => Done a s
    | Raise what => Threw (library_error what) s
    end.

Definition undefined {A} : Test A := fun _ => Undefined.

(** [TEUCHOS_ASSERT(c)], written at source line [line] with the text [test]. *)
Definition TEUCHOS_ASSERT (line : nat) (test : string) (c : bool) : Test unit :=
  fun s => if c then Done tt s else Threw (logic_error line test) s.

Definition compared (v1 v2 : Z) (passed : bool) : Test unit :=
  fun s => Done tt (mkTestState (success s && passed) (evaluated s ++ [(v1, v2)])).

(** [TEST_EQUALITY(v1, v2)] *)
Definition TEST_EQUALITY (v1 v2 : Z) : Test unit := compared v1 v2 (v1 =? v2).

(** [TEST_COMPARE(v1, >, v2)] *)
Definition TEST_COMPARE_gt (v1 v2 : Z) : Test unit := compared v1 v2 (v1 >? v2).

(** [v[i]] on a [std::vector<int>], [i] a [std::size_t]. *)
Definition at_ (v : list Z) (i : nat) : Test Z :=
  fun s => match v !! i with Some x => Done x s | None => Undefined end.

(** [v[i]] with an [int] index. *)
Definition at_int (v : list Z) (i : Z) : Test Z :=
  if i <? 0 then undefined else at_ v (Z.to_nat i).

(** The value an [int] holds after a result of unsigned arithmetic is
    stored in it (32 bits, two's complement). *)
Definition to_int (z : Z) : Z := (z + 2 ^ 31) mod 2 ^ 32 - 2 ^ 31.

(** [for (std::size_t i = 0; i < n; i++) body(i)] *)
Fixpoint for_range (start n : nat) (body : nat -> Test unit) : Test unit :=
  match n with
  | O => ret tt
  | S n' => bind (body start) (fun _ => for_range (S start) n' body)
  end.

(** [std::min_element(v.begin(), v.end())]: the position of the first
    smallest element, [v.end()] (no element) for an empty vector. *)
Fixpoint min_from (best : Z) (v : list Z) : Z :=
  match v with
  | [] => best
  | x :: v' => min_from (if x <? best then x else best) v'
  end.

Definition min_element (v : list Z) : option Z :=
  match v with
  | [] => None
  | x :: v' => Some (min_from x v')
  end.

(** [*it] for the iterator [min_element] returned. *)
Definition deref (it : option Z) : Test Z :=
  fun s => match it with Some x => Done x s | None => Undefined end.

#[export] Instance Test_ret : MRet Test := @ret.
#[export] Instance Test_bind : MBind Test := fun A B k m => bind m k.

(** A test body passes when it runs to its end from the fresh state with
    [success] still set. *)
Definition passes (m : Test unit) : Prop :=
  exists s', m fresh = Done tt s' /\ success s' = true.

(** Two properties that every piece of a test body has unless it is a
    failing [TEUCHOS_ASSERT]: [success], once cleared, stays cleared, and
    the only exceptions are those of the library routines called. *)
Definition tame {A} (m : Test A) : Prop :=
  forall s,
    match m s with
    | Done _ s' => success s' = true -> success s = true
    | Threw e _ => exists what, e = library_error what
    | Undefined => True
    end.

(** A piece that only reads: it ends in the state it started in. *)
Definition silent {A} (m : Test A) : Prop :=
  forall s a s', m s = Done a s' -> s' = s.

(** A piece that throws only exceptions of a given kind. *)
Definition throws_only {A} (allowed : Exn -> Prop) (m : Test A) : Prop :=
  forall s, match m s with Threw e _ => allowed e | _ => True end.

(** What a routine of the library threw, or the [TEUCHOS_ASSERT(false)] of
    the source line [line]. *)
Definition library_or_final_assert (line : nat) (e : Exn) : Prop :=
  (exists what, e = library_error what) \/ e = logic_error line "false".

(** Two outcomes with the same verdict: both undefined, both the same
    exception, or both at the end with the same value of [success]. *)
Definition same_verdict {A} (o1 o2 : Outcome A) : Prop :=
  match o1, o2 with
  | Done _ s1, Done _ s2 => success s1 = success s2
  | Threw e1 s1, Threw e2 s2 => e1 = e2 /\ success s1 = success s2
  | Undefined, Undefined => True
  | _, _ => False
  end.

End Teuchos.


(** ** panzer: [tUniqueGlobalIndexerUtilities.cpp]

    The test file calls into panzer, Intrepid and Tpetra.  Each object it
    receives from there is represented by the answers of the methods the
    file calls on it; every such call may throw. *)
Module panzer.
Import Teuchos.

(** [panzer::UniqueGlobalIndexer<short,int>] *)
Record UniqueGlobalIndexer : Type := mkUGI {
  getOwnedAndSharedIndices : Result (list Z);
  getFieldNum : string -> Result Z;
  getElementBlock : string -> Result (list Z);
  getGIDFieldOffsets : string -> Z -> Result (list Z);
  getElementGIDs : Z -> Result (list Z)
}.

(** [Intrepid::FieldContainer<int>]: the dimensions and the values in
    row-major order. *)
Record FieldContainer : Type := mkFC {
  dims : list nat;
  values : list Z
}.

(** [data.resize(d0, d1)], [data.resize(d0, d1, d2)]: new dimensions, all
    values zero. *)
Definition resize (ds : list nat) : FieldContainer :=
  mkFC ds (replicate (foldr Nat.mul 1%nat ds) 0).

Definition store (data : FieldContainer) (i : nat) (x : Z) : Test FieldContainer :=
  if decide (i < length (values data))%nat
  then mret (mkFC (dims data) (<[i := x]> (values data)))
  else undefined.

(** [data(e,f) = x] *)
Definition set2 (data : FieldContainer) (e f : nat) (x : Z) : Test FieldContainer :=
  match dims data with
  | [_; d1] => store data (e * d1 + f) x
  | _ => undefined
  end.

(** [data(e,f,c) = x] *)
Definition set3 (data : FieldContainer) (e f c : nat) (x : Z) : Test FieldContainer :=
  match dims data with
  | [_; d1; d2] => store data ((e * d1 + f) * d2 + c) x
  | _ => undefined
  end.

(** [Tpetra::Map], [Tpetra::Vector<int,std::size_t,int>] and
    [Tpetra::MultiVector<int,std::size_t,int>] *)
Inductive Map : Type := mkMap (globalIndices : list Z).

Record Vector : Type := mkVector {
  Vector_getLocalLength : nat;
  get1dCopy : nat -> Result (list Z)
    (* the contents of the array of the given size after the copy *)
}.

Record MultiVector : Type := mkMultiVector {
  getLocalLength : nat;
  getNumVectors : nat;
  getVector : nat -> Result Vector
}.

(** [panzer::ArrayToFieldVector<short,int,Node>] keeps the indexer it was
    built from. *)
Record ArrayToFieldVector : Type := mkATFV { ugi_ : UniqueGlobalIndexer }.

(** The routines of panzer and of the unit-test indexer that the file calls. *)
Record Library : Type := mkLibrary {
  new_UniqueGlobalIndexer : Z -> Z -> Result UniqueGlobalIndexer;
  buildGhostedFieldVector : UniqueGlobalIndexer -> Result (list Z);
  buildGhostedFieldReducedVector : UniqueGlobalIndexer -> Result Vector;
  getFieldMap : Z -> Vector -> Result Map;
  new_Vector : Map -> Result Vector;
  updateGhostedDataReducedVector :
    string -> string -> UniqueGlobalIndexer -> FieldContainer -> Vector -> Result Vector;
  new_ArrayToFieldVector : UniqueGlobalIndexer -> Result ArrayToFieldVector;
  getGhostedDataVector :
    ArrayToFieldVector -> string -> gmap string FieldContainer -> Result MultiVector;
  getDataVector :
    ArrayToFieldVector -> string -> gmap string FieldContainer -> Result MultiVector
}.

(** A loop that updates a local variable. *)
Fixpoint for_fold {L : Type} (start n : nat) (body : nat -> L -> Test L) (acc : L)
  : Test L :=
  match n with
  | O => mret acc
  | S n' => acc' ← body start acc; for_fold (S start) n' body acc'
  end.

(** [fillFieldContainer(fieldNum, blockId, ugi, data)], lines 100-114. *)
Definition fillFieldContainer (fieldNum : Z) (blockId : string)
    (ugi : UniqueGlobalIndexer) : Test FieldContainer :=
  let data := resize [1; 4]%nat in
  elements ← call (getElementBlock ugi blockId);
  fieldOffsets ← call (getGIDFieldOffsets ugi blockId fieldNum);
  for_fold 0 (length elements) (fun e data =>
    elmt ← at_ elements e;
    gids ← call (getElementGIDs ugi elmt);
    for_fold 0 (length fieldOffsets) (fun f data =>
      off ← at_ fieldOffsets f;
      gid ← at_int gids off;
      set2 data e f gid) data) data.

(** [fillFieldContainer(fieldNum, blockId, ugi, data, cols)], lines 116-131. *)
Definition fillFieldContainer_cols (fieldNum : Z) (blockId : string)
    (ugi : UniqueGlobalIndexer) (cols : nat) : Test FieldContainer :=
  let data := resize [1; 4; cols]%nat in
  elements ← call (getElementBlock ugi blockId);
  fieldOffsets ← call (getGIDFieldOffsets ugi blockId fieldNum);
  for_fold 0 (length elements) (fun e data =>
    elmt ← at_ elements e;
    gids ← call (getElementGIDs ugi elmt);
    for_fold 0 (length fieldOffsets) (fun f data =>
      for_fold 0 cols (fun c data =>
        off ← at_ fieldOffsets f;
        gid ← at_int gids off;
        set3 data e f c (to_int (gid + Z.of_nat c))) data) data) data.

(** [TEST_EQUALITY(v[i], expected)] *)
Definition expect (v : list Z) (i : nat) (expected : Z) : Test unit :=
  x ← at_ v i; TEST_EQUALITY x expected.

Definition size (v : list Z) : Z := Z.of_nat (length v).

(** *** Test 1: GhostedFieldVector, lines 34-98 *)

Definition GhostedFieldVector_rank0 (ghostedFields : list Z) : Test unit :=
  expect ghostedFields 0 0;;
  expect ghostedFields 1 1;;
  expect ghostedFields 2 0;;
  expect ghostedFields 3 1;;
  expect ghostedFields 4 0;;
  expect ghostedFields 5 1;;
  expect ghostedFields 6 0;;
  expect ghostedFields 7 1;;
  expect ghostedFields 8 0;;
  expect ghostedFields 9 1;;
  expect ghostedFields 10 0;;
  expect ghostedFields 11 0;;
  expect ghostedFields 12 0;;
  expect ghostedFields 13 1.

Definition GhostedFieldVector_rank1 (ghostedFields : list Z) : Test unit :=
  expect ghostedFields 0 0;;
  expect ghostedFields 1 1;;
  expect ghostedFields 2 0;;
  expect ghostedFields 3 1;;
  expect ghostedFields 4 0;;
  expect ghostedFields 5 1;;
  expect ghostedFields 6 0;;
  expect ghostedFields 7 1;;
  expect ghostedFields 8 0;;
  expect ghostedFields 9 0;;
  expect ghostedFields 10 0;;
  expect ghostedFields 11 0.

(** The branch on the rank, lines 66-97. *)
Definition rank_branch (myRank : Z) (ghostedFields : list Z) : Test unit :=
  if myRank =? 0 then GhostedFieldVector_rank0 ghostedFields
  else if myRank =? 1 then GhostedFieldVector_rank1 ghostedFields
  else TEUCHOS_ASSERT 97 "false" false.

(** Lines 56-97: what the test does with the two vectors it obtained. *)
Definition GhostedFieldVector_checks (myRank : Z)
    (sharedIndices ghostedFields : list Z) : Test unit :=
  TEST_EQUALITY (size ghostedFields) (size sharedIndices);;
  smallest ← deref (min_element ghostedFields);
  TEST_COMPARE_gt smallest (-1);;
  for_range 0 (length ghostedFields) (fun i =>
    _ ← at_ sharedIndices i; _ ← at_ ghostedFields i; mret tt);;
  rank_branch myRank ghostedFields.

Definition GhostedFieldVector (lib : Library) (myRank numProcs : Z) : Test unit :=
  TEUCHOS_ASSERT 46 "numProcs==2" (numProcs =? 2);;
  globalIndexer ← call (new_UniqueGlobalIndexer lib myRank numProcs);
  sharedIndices ← call (getOwnedAndSharedIndices globalIndexer);
  ghostedFields ← call (buildGhostedFieldVector lib globalIndexer);
  GhostedFieldVector_checks myRank sharedIndices ghostedFields.

(** *** Test 2: updateGhostedDataVector, lines 133-214 *)

Definition updateGhostedDataVector_rank0 (ghostedFields_u ghostedFields_t : list Z)
  : Test unit :=
  expect ghostedFields_u 0 0;;
  expect ghostedFields_u 1 2;;
  expect ghostedFields_u 2 4;;
  expect ghostedFields_u 3 6;;
  expect ghostedFields_u 4 8;;
  expect ghostedFields_u 5 12;;
  expect ghostedFields_u 6 13;;
  expect ghostedFields_u 7 10;;
  expect ghostedFields_t 0 1;;
  expect ghostedFields_t 1 3;;
  expect ghostedFields_t 2 5;;
  expect ghostedFields_t 3 7.

Definition updateGhostedDataVector_rank1 (ghostedFields_u ghostedFields_t : list Z)
  : Test unit :=
  expect ghostedFields_u 0 2;;
  expect ghostedFields_u 1 8;;
  expect ghostedFields_u 2 10;;
  expect ghostedFields_u 3 4;;
  expect ghostedFields_u 4 12;;
  expect ghostedFields_u 5 14;;
  expect ghostedFields_u 6 15;;
  expect ghostedFields_u 7 13;;
  expect ghostedFields_t 0 3;;
  expect ghostedFields_t 1 9;;
  expect ghostedFields_t 2 11;;
  expect ghostedFields_t 3 5.

Definition updateGhostedDataVector (lib : Library) (myRank numProcs : Z) : Test unit :=
  TEUCHOS_ASSERT 147 "numProcs==2" (numProcs =? 2);;
  globalIndexer ← call (new_UniqueGlobalIndexer lib myRank numProcs);
  uFieldNum ← call (getFieldNum globalIndexer "U");
  tFieldNum ← call (getFieldNum globalIndexer "T");
  reducedFieldVector ← call (buildGhostedFieldReducedVector lib globalIndexer);
  uMap ← call (getFieldMap lib uFieldNum reducedFieldVector);
  reducedUDataVector ← call (new_Vector lib uMap);
  tMap ← call (getFieldMap lib tFieldNum reducedFieldVector);
  reducedTDataVector ← call (new_Vector lib tMap);
  TEST_EQUALITY (Z.of_nat (Vector_getLocalLength reducedUDataVector)) 8;;
  TEST_EQUALITY (Z.of_nat (Vector_getLocalLength reducedTDataVector)) 4;;
  dataU_b0 ← fillFieldContainer uFieldNum "block_0" globalIndexer;
  dataU_b1 ← fillFieldContainer uFieldNum "block_1" globalIndexer;
  dataT_b0 ← fillFieldContainer tFieldNum "block_0" globalIndexer;
  reducedUDataVector ← call (updateGhostedDataReducedVector lib
                               "U" "block_0" globalIndexer dataU_b0 reducedUDataVector);
  reducedUDataVector ← call (updateGhostedDataReducedVector lib
                               "U" "block_1" globalIndexer dataU_b1 reducedUDataVector);
  reducedTDataVector ← call (updateGhostedDataReducedVector lib
                               "T" "block_0" globalIndexer dataT_b0 reducedTDataVector);
  ghostedFields_u ← call (get1dCopy reducedUDataVector
                            (Vector_getLocalLength reducedUDataVector));
  ghostedFields_t ← call (get1dCopy reducedTDataVector
                            (Vector_getLocalLength reducedTDataVector));
  if myRank =? 0 then updateGhostedDataVector_rank0 ghostedFields_u ghostedFields_t
  else if myRank =? 1 then updateGhostedDataVector_rank1 ghostedFields_u ghostedFields_t
  else TEUCHOS_ASSERT 213 "false" false.

(** [fillFieldContainer(globalIndexer->getFieldNum(name), blockId,
    *globalIndexer, data[blockId])] on a [std::map] of containers. *)
Definition fill_block (globalIndexer : UniqueGlobalIndexer) (name blockId : string)
    (data : gmap string FieldContainer) : Test (gmap string FieldContainer) :=
  fieldNum ← call (getFieldNum globalIndexer name);
  block ← fillFieldContainer fieldNum blockId globalIndexer;
  mret (<[blockId := block]> data).

Definition fill_block_cols (globalIndexer : UniqueGlobalIndexer) (name blockId : string)
    (data : gmap string FieldContainer) (cols : nat)
  : Test (gmap string FieldContainer) :=
  fieldNum ← call (getFieldNum globalIndexer name);
  block ← fillFieldContainer_cols fieldNum blockId globalIndexer cols;
  mret (<[blockId := block]> data).

(** [mv->getVector(c)->get1dCopy(arrayViewFromVector(fields))], where
    [fields] was built with [mv->getLocalLength()] entries. *)
Definition copy_of_column (mv : MultiVector) (c : nat) : Test (list Z) :=
  column ← call (getVector mv c);
  call (get1dCopy column (getLocalLength mv)).

(** *** Test 3: ArrayToFieldVector_ghost, lines 216-291 *)

Definition ArrayToFieldVector_ghost_rank0 (reducedUDataVector reducedTDataVector : MultiVector)
    (ghostedFields_u ghostedFields_t : list Z) : Test unit :=
  TEST_EQUALITY (Z.of_nat (getLocalLength reducedUDataVector)) 8;;
  TEST_EQUALITY (Z.of_nat (getLocalLength reducedTDataVector)) 6;;
  expect ghostedFields_u 0 0;;
  expect ghostedFields_u 1 2;;
  expect ghostedFields_u 2 4;;
  expect ghostedFields_u 3 6;;
  expect ghostedFields_u 4 8;;
  expect ghostedFields_u 5 12;;
  expect ghostedFields_u 6 13;;
  expect ghostedFields_u 7 10;;
  expect ghostedFields_t 0 1;;
  expect ghostedFields_t 1 3;;
  expect ghostedFields_t 2 5;;
  expect ghostedFields_t 3 7;;
  expect ghostedFields_t 4 9;;
  expect ghostedFields_t 5 11.

Definition ArrayToFieldVector_ghost_rank1 (reducedUDataVector reducedTDataVector : MultiVector)
    (ghostedFields_u ghostedFields_t : list Z) : Test unit :=
  TEST_EQUALITY (Z.of_nat (getLocalLength reducedUDataVector)) 8;;
  TEST_EQUALITY (Z.of_nat (getLocalLength reducedTDataVector)) 4;;
  expect ghostedFields_u 0 2;;
  expect ghostedFields_u 1 8;;
  expect ghostedFields_u 2 10;;
  expect ghostedFields_u 3 4;;
  expect ghostedFields_u 4 12;;
  expect ghostedFields_u 5 14;;
  expect ghostedFields_u 6 15;;
  expect ghostedFields_u 7 13;;
  expect ghostedFields_t 0 3;;
  expect ghostedFields_t 1 9;;
  expect ghostedFields_t 2 11;;
  expect ghostedFields_t 3 5.

Definition ArrayToFieldVector_ghost (lib : Library) (myRank numProcs : Z) : Test unit :=
  TEUCHOS_ASSERT 230 "numProcs==2" (numProcs =? 2);;
  globalIndexer ← call (new_UniqueGlobalIndexer lib myRank numProcs);
  atfv ← call (new_ArrayToFieldVector lib globalIndexer);
  dataU ← fill_block globalIndexer "U" "block_0" ∅;
  dataU ← fill_block globalIndexer "U" "block_1" dataU;
  dataT ← fill_block globalIndexer "T" "block_0" ∅;
  reducedUDataVector ← call (getGhostedDataVector lib atfv "U" dataU);
  reducedTDataVector ← call (getGhostedDataVector lib atfv "T" dataT);
  ghostedFields_u ← copy_of_column reducedUDataVector 0;
  ghostedFields_t ← copy_of_column reducedTDataVector 0;
  if myRank =? 0 then
    ArrayToFieldVector_ghost_rank0 reducedUDataVector reducedTDataVector
      ghostedFields_u ghostedFields_t
  else if myRank =? 1 then
    ArrayToFieldVector_ghost_rank1 reducedUDataVector reducedTDataVector
      ghostedFields_u ghostedFields_t
  else TEUCHOS_ASSERT 290 "false" false.

(** *** Test 4: ArrayToFieldVector, lines 293-358 *)

Definition ArrayToFieldVector_rank0 (reducedUDataVector reducedTDataVector : MultiVector)
    (fields_u fields_t : list Z) : Test unit :=
  TEST_EQUALITY (Z.of_nat (getLocalLength reducedUDataVector)) 6;;
  TEST_EQUALITY (Z.of_nat (getLocalLength reducedTDataVector)) 5;;
  expect fields_u 0 6;;
  expect fields_u 1 0;;
  expect fields_u 2 2;;
  expect fields_u 3 8;;
  expect fields_u 4 10;;
  expect fields_u 5 13;;
  expect fields_t 0 7;;
  expect fields_t 1 1;;
  expect fields_t 2 3;;
  expect fields_t 3 9;;
  expect fields_t 4 11.

Definition ArrayToFieldVector_rank1 (reducedUDataVector reducedTDataVector : MultiVector)
    (fields_u fields_t : list Z) : Test unit :=
  TEST_EQUALITY (Z.of_nat (getLocalLength reducedUDataVector)) 4;;
  TEST_EQUALITY (Z.of_nat (getLocalLength reducedTDataVector)) 1;;
  expect fields_u 0 4;;
  expect fields_u 1 12;;
  expect fields_u 2 15;;
  expect fields_u 3 14;;
  expect fields_t 0 5.

Definition ArrayToFieldVector_test (lib : Library) (myRank numProcs : Z) : Test unit :=
  TEUCHOS_ASSERT 307 "numProcs==2" (numProcs =? 2);;
  globalIndexer ← call (new_UniqueGlobalIndexer lib myRank numProcs);
  atfv ← call (new_ArrayToFieldVector lib globalIndexer);
  dataU ← fill_block globalIndexer "U" "block_0" ∅;
  dataU ← fill_block globalIndexer "U" "block_1" dataU;
  dataT ← fill_block globalIndexer "T" "block_0" ∅;
  reducedUDataVector ← call (getDataVector lib atfv "U" dataU);
  reducedTDataVector ← call (getDataVector lib atfv "T" dataT);
  fields_u ← copy_of_column reducedUDataVector 0;
  fields_t ← copy_of_column reducedTDataVector 0;
  if myRank =? 0 then
    ArrayToFieldVector_rank0 reducedUDataVector reducedTDataVector fields_u fields_t
  else if myRank =? 1 then
    ArrayToFieldVector_rank1 reducedUDataVector reducedTDataVector fields_u fields_t
  else TEUCHOS_ASSERT 357 "false" false.

(** *** Test 5: ArrayToFieldVector_multicol, lines 360-431 *)

Definition ArrayToFieldVector_multicol_rank0
    (reducedUDataVector reducedTDataVector : MultiVector)
    (fields_u fields_t : list Z) (c : nat) : Test unit :=
  TEST_EQUALITY (Z.of_nat (getLocalLength reducedUDataVector)) 6;;
  TEST_EQUALITY (Z.of_nat (getLocalLength reducedTDataVector)) 5;;
  expect fields_u 0 (6 + Z.of_nat c);;
  expect fields_u 1 (0 + Z.of_nat c);;
  expect fields_u 2 (2 + Z.of_nat c);;
  expect fields_u 3 (8 + Z.of_nat c);;
  expect fields_u 4 (10 + Z.of_nat c);;
  expect fields_u 5 (13 + Z.of_nat c);;
  expect fields_t 0 (7 + Z.of_nat c);;
  expect fields_t 1 (1 + Z.of_nat c);;
  expect fields_t 2 (3 + Z.of_nat c);;
  expect fields_t 3 (9 + Z.of_nat c);;
  expect fields_t 4 (11 + Z.of_nat c).

Definition ArrayToFieldVector_multicol_rank1
    (reducedUDataVector reducedTDataVector : MultiVector)
    (fields_u fields_t : list Z) (c : nat) : Test unit :=
  TEST_EQUALITY (Z.of_nat (getLocalLength reducedUDataVector)) 4;;
  TEST_EQUALITY (Z.of_nat (getLocalLength reducedTDataVector)) 1;;
  expect fields_u 0 (4 + Z.of_nat c);;
  expect fields_u 1 (12 + Z.of_nat c);;
  expect fields_u 2 (15 + Z.of_nat c);;
  expect fields_u 3 (14 + Z.of_nat c);;
  expect fields_t 0 (5 + Z.of_nat c).

(** The body of the loop over the columns, lines 394-429. *)
Definition ArrayToFieldVector_multicol_column (myRank : Z)
    (reducedUDataVector reducedTDataVector : MultiVector) (c : nat) : Test unit :=
  fields_u ← copy_of_column reducedUDataVector c;
  fields_t ← copy_of_column reducedTDataVector c;
  if myRank =? 0 then
    ArrayToFieldVector_multicol_rank0 reducedUDataVector reducedTDataVector
      fields_u fields_t c
  else if myRank =? 1 then
    ArrayToFieldVector_multicol_rank1 reducedUDataVector reducedTDataVector
      fields_u fields_t c
  else TEUCHOS_ASSERT 429 "false" false.

Definition ArrayToFieldVector_multicol (lib : Library) (myRank numProcs : Z) : Test unit :=
  TEUCHOS_ASSERT 374 "numProcs==2" (numProcs =? 2);;
  globalIndexer ← call (new_UniqueGlobalIndexer lib myRank numProcs);
  atfv ← call (new_ArrayToFieldVector lib globalIndexer);
  let numCols := 5%nat in
  dataU ← fill_block_cols globalIndexer "U" "block_0" ∅ numCols;
  dataU ← fill_block_cols globalIndexer "U" "block_1" dataU numCols;
  dataT ← fill_block_cols globalIndexer "T" "block_0" ∅ numCols;
  reducedUDataVector ← call (getDataVector lib atfv "U" dataU);
  reducedTDataVector ← call (getDataVector lib atfv "T" dataT);
  TEST_EQUALITY (Z.of_nat (getNumVectors reducedUDataVector)) (Z.of_nat numCols);;
  TEST_EQUALITY (Z.of_nat (getNumVectors reducedTDataVector)) (Z.of_nat numCols);;
  for_range 0 numCols
    (ArrayToFieldVector_multicol_column myRank reducedUDataVector reducedTDataVector).

(** The unit tests of the file, by name, in source order. *)
Definition unit_tests : list (string * (Library -> Z -> Z -> Test unit)) :=
  [ ("GhostedFieldVector"%string, GhostedFieldVector);
    ("updateGhostedDataVector"%string, updateGhostedDataVector);
    ("ArrayToFieldVector_ghost"%string, ArrayToFieldVector_ghost);
    ("ArrayToFieldVector"%string, ArrayToFieldVector_test);
    ("ArrayToFieldVector_multicol"%string, ArrayToFieldVector_multicol) ].

(** The source line of the process-count assertion of each test and of its
    final [TEUCHOS_ASSERT(false)]. *)
Definition assert_lines : list (nat * nat) :=
  [ (46, 97); (147, 213); (230, 290); (307, 357); (374, 429) ]%nat.

(** What it means for a test to require two processes: with any other
    process count the first assertion throws in the state the test started
    in (nothing was compared yet), and with two processes, hence rank 0 or
    1, the test does not end in its final [TEUCHOS_ASSERT(false)]. *)
Definition requires_two_processes (test : Library -> Z -> Z -> Test unit)
    (lines : nat * nat) : Prop :=
  forall (lib : Library) (myRank numProcs : Z) (s : TestState),
    (numProcs <> 2 ->
     test lib myRank numProcs s = Threw (logic_error (fst lines) "numProcs==2") s) /\
    (numProcs = 2 -> myRank = 0 \/ myRank = 1 ->
     forall s', test lib myRank numProcs s <> Threw (logic_error (snd lines) "false") s').

(** The literal values that the branch on the rank compares the field
    vector with, entry by entry: lines 67-80 for rank 0, lines 83-94 for
    rank 1. *)
Definition expected_ghostedFields (myRank : Z) : list Z :=
  if myRank =? 0 then [0; 1; 0; 1; 0; 1; 0; 1; 0; 1; 0; 0; 0; 1]
  else if myRank =? 1 then [0; 1; 0; 1; 0; 1; 0; 1; 0; 0; 0; 0]
  else [].

(** The checks of lines 56-97 accept the two vectors: they run to their
    end from the fresh state with [success] still set. *)
Definition validated (myRank : Z) (sharedIndices ghostedFields : list Z) : Prop :=
  passes (GhostedFieldVector_checks myRank sharedIndices ghostedFields).

(** A small instance to run the definitions on: an indexer with one
    element per block, eight indices on the element, the field U on the
    even and the field T on the odd positions; and a library that answers
    the calls of the first test with the given vectors and no other call. *)
Definition sample_indexer (sharedIndices : list Z) : UniqueGlobalIndexer :=
  mkUGI (Ok sharedIndices)
        (fun name => if String.eqb name "U" then Ok 0
                     else if String.eqb name "T" then Ok 1
                     else Raise "no such field")
        (fun blockId => Ok [0])
        (fun blockId fieldNum => Ok (if fieldNum =? 0 then [0; 2; 4; 6] else [1; 3; 5; 7]))
        (fun elmt => Ok [0; 1; 2; 3; 4; 5; 6; 7]).

Definition sample_library (sharedIndices ghostedFields : list Z) : Library :=
  mkLibrary (fun myRank numProcs => Ok (sample_indexer sharedIndices))
            (fun ugi => Ok ghostedFields)
            (fun ugi => Raise "not provided")
            (fun fieldNum v => Raise "not provided")
            (fun map => Raise "not provided")
            (fun name blockId ugi data v => Raise "not provided")
            (fun ugi => Raise "not provided")
            (fun atfv name data => Raise "not provided")
            (fun atfv name data => Raise "not provided").

(** A container with the dimensions [ds] and as many values as they span. *)
Definition shaped (ds : list nat) (data : FieldContainer) : Prop :=
  dims data = ds /\ length (values data) = foldr Nat.mul 1%nat ds.

(** The values the overload with columns stores for the offset [off]. *)
Definition shifted (gids : list Z) (cols : nat) (off : Z) : list Z :=
  (fun c => to_int (gids !!! Z.to_nat off + Z.of_nat c)) <$> seq 0 cols.

End panzer.

(** ** zoltan2: [Zoltan2::MappingProblem] *)
Module Zoltan2.

Inductive exception : Type :=
| bad_any_cast
| null_reference
| std_exception (what : string).

(** [Teuchos::ParameterEntry]: the value it holds is a string or a value
    of some other type. *)
Inductive ParameterEntry : Type :=
| entry_string (value : string)
| entry_other (type_name : string).

(** [pe->getValue<std::string>(&algName)] *)
Definition getValue_string (pe : ParameterEntry) : exception + string :=
  match pe with
  | entry_string value => inr value
  | entry_other _ => inl bad_any_cast
  end.

Section MappingProblem.
Context {Comm Solution Mapper PartSoln Machine : Type}.

(** The constructors and the algorithm the class calls; they are declared
    in other headers.  [new_Problem] is the initialiser
    [Problem<Adapter>(A_, p_, comm_)] of the base class (lines 102, 114,
    124).  [alg.map(soln)] fills the solution that the RCP points to, in
    place: [CoordinateTaskMapper_map alg s] is the solution as a call that
    returns leaves it, or what the call throws, and
    [CoordinateTaskMapper_map_throwing alg s] is the solution as a call
    that throws leaves it. *)
Record Services : Type := mkServices {
  new_Problem : gmap string ParameterEntry -> Comm -> exception + unit;
  new_MappingSolution : exception + Solution;
  new_CoordinateTaskMapper : Comm -> exception + Mapper;
  CoordinateTaskMapper_map : Mapper -> Solution -> exception + Solution;
  CoordinateTaskMapper_map_throwing : Mapper -> Solution -> Solution;
  new_MachineRepresentation : Comm -> exception + Machine
}.

(** The members of the class (lines 160-163), the communicator [comm_]
    of the base class [Problem<Adapter>], and the parameter list [pl] that
    [solve] reads on line 182 without declaring it: the list the
    constructor received as [p_]. *)
Record MappingProblem : Type := mkMappingProblem {
  comm_ : Comm;
  pl : gmap string ParameterEntry;
  soln : option Solution;
  partSoln : option PartSoln;
  machine : option Machine
}.

Inductive Event : Type :=
| created_MappingSolution
| created_CoordinateTaskMapper
| invoked_map
| created_MachineRepresentation.

(** A member function runs over the object and the record of the calls
    made so far; an exception leaves both as they were when it was thrown. *)
Record World : Type := mkWorld {
  this : MappingProblem;
  calls : list Event
}.

Definition M (A : Type) : Type := World -> (exception + A) * World.

Definition ret {A} (a : A) : M A := fun w => (inr a, w).

Definition bind {A B} (m : M A) (k : A -> M B) : M B :=
  fun w =>
    match m w with
    | (inr a, w') => k a w'
    | (inl e, w') => (inl e, w')
    end.

#[export] Instance M_ret : MRet M := @ret.
#[export] Instance M_bind : MBind M := fun A B k m => bind m k.

Definition throw {A} (e : exception) : M A := fun w => (inl e, w).

(** [try { body } catch (e) { handler }] *)
Definition try_catch {A} (body : M A) (handler : exception -> M A) : M A :=
  fun w =>
    match body w with
    | (inr a, w') => (inr a, w')
    | (inl e, w') => handler e w'
    end.

(** Modelled from the spec: the macro [Z2_FORWARD_EXCEPTIONS] is defined in
    a header that is not among the sources.  The spec calls it "a framework
    convention for exception re-throwing": the handlers it supplies to the
    [try] block before it throw the exception they caught. *)
Definition Z2_FORWARD_EXCEPTIONS {A} : exception -> M A := fun e => throw e.

(** A call of one of the services, recorded. *)
Definition service {A} (ev : Event) (r : exception + A) : M A :=
  fun w =>
    (r, mkWorld (this w) (calls w ++ [ev])).

Definition get_this : M MappingProblem := fun w => (inr (this w), w).

Definition put_soln (p : MappingProblem) (s : option Solution) : MappingProblem :=
  mkMappingProblem (comm_ p) (pl p) s (partSoln p) (machine p).

Definition put_partSoln (p : MappingProblem) (s : option PartSoln) : MappingProblem :=
  mkMappingProblem (comm_ p) (pl p) (soln p) s (machine p).

Definition put_machine (p : MappingProblem) (m : option Machine) : MappingProblem :=
  mkMappingProblem (comm_ p) (pl p) (soln p) (partSoln p) m.

Definition set_soln (s : option Solution) : M unit :=
  fun w => (inr tt, mkWorld (put_soln (this w) s) (calls w)).

Definition set_partSoln (s : option PartSoln) : M unit :=
  fun w => (inr tt, mkWorld (put_partSoln (this w) s) (calls w)).

Definition set_machine (m : option Machine) : M unit :=
  fun w => (inr tt, mkWorld (put_machine (this w) m) (calls w)).

Definition lift {A} (r : exception + A) : M A := fun w => (r, w).

Variable srv : Services.

(** [defString] is used by [solve] (line 181) and declared nowhere in the
    file: the default algorithm name is a parameter. *)
Variable defString : string.

(** [alg.map(soln)] on the solution [s] that the RCP of the problem points
    to: the algorithm fills it in place; whether the call returns or
    throws, the problem holds the solution as the call left it. *)
Definition map_in_place (alg : Mapper) (s : Solution) : M unit :=
  fun w =>
    let log := calls w ++ [invoked_map] in
    match CoordinateTaskMapper_map srv alg s with
    | inr s' => (inr tt, mkWorld (put_soln (this w) (Some s')) log)
    | inl e =>
        (inl e,
         mkWorld (put_soln (this w) (Some (CoordinateTaskMapper_map_throwing srv alg s)))
                 log)
    end.

(** [alg.map(this->soln)] *)
Definition map_into_soln (alg : Mapper) : M unit :=
  p ← get_this;
  match soln p with
  | Some s => map_in_place alg s
  | None => throw null_reference
  end.

(** [MappingProblem<Adapter>::solve], lines 168-192. *)
Definition solve (newData : bool) : M unit :=
  try_catch
    (s ← service created_MappingSolution (new_MappingSolution srv);
     set_soln (Some s))
    Z2_FORWARD_EXCEPTIONS;;
  p ← get_this;
  let algName := defString in
  let pe := pl p !! "mapping_algorithm"%string in
  algName ← match pe with
            | Some entry => lift (getValue_string entry)
            | None => mret algName
            end;
  try_catch
    (if String.eqb algName "geometric" then
       alg ← service created_CoordinateTaskMapper (new_CoordinateTaskMapper srv (comm_ p));
       map_into_soln alg
     else mret tt)
    Z2_FORWARD_EXCEPTIONS.

(** The name [solve] compares with ["geometric"] (lines 181-183): the
    value of the entry, the default without an entry; reading an entry
    that holds no string throws. *)
Definition algName_of (p : MappingProblem) : exception + string :=
  match pl p !! "mapping_algorithm"%string with
  | Some entry => getValue_string entry
  | None => inr defString
  end.


(** [MappingProblem<Adapter>::createMappingProblem], lines 200-216. *)
Definition createMappingProblem (partSoln_ : option PartSoln) (machine_ : option Machine)
  : M unit :=
  match partSoln_ with
  | Some ps => set_partSoln (Some ps)
  | None => mret tt
  end;;
  match machine_ with
  | Some m => set_machine (Some m)
  | None =>
      try_catch
        (p ← get_this;
         m ← service created_MachineRepresentation
               (new_MachineRepresentation srv (comm_ p));
         set_machine (Some m))
        Z2_FORWARD_EXCEPTIONS
  end.

(** The constructors, lines 99-128: the initialiser of the base class
    runs first; when it throws, the body of the constructor does not run.
    When it returns, the base class holds the communicator and the
    parameter list, and [createMappingProblem] runs. *)
Definition MappingProblem_new (p_ : gmap string ParameterEntry) (comm : Comm)
    (partSoln_ : option PartSoln) (machine_ : option Machine)
  : (exception + unit) * World :=
  let w0 := mkWorld (mkMappingProblem comm p_ None None None) [] in
  match new_Problem srv p_ comm with
  | inl e => (inl e, w0)
  | inr _ => createMappingProblem partSoln_ machine_ w0
  end.

(** [getSolution()], lines 152-155. *)
Definition getSolution (p : MappingProblem) : option Solution := soln p.

End MappingProblem.
Arguments Services : clear implicits.
Arguments MappingProblem : clear implicits.
Arguments World : clear implicits.
Arguments M : clear implicits.

(** A small instance to run the definitions on: solutions are counters
    (a new one is 0, the algorithm adds 1), nothing throws. *)
Definition sample_services : Services unit nat unit unit :=
  mkServices (fun _ _ => inr tt) (inr 0%nat) (fun _ => inr tt) (fun _ s => inr (S s))
             (fun _ s => s) (fun _ => inr tt).

(** The same, with an algorithm that throws after it has counted to 7. *)
Definition sample_services_throwing_map : Services unit nat unit unit :=
  mkServices (fun _ _ => inr tt) (inr 0%nat) (fun _ => inr tt)
             (fun _ s => inl (std_exception "map")) (fun _ s => 7%nat) (fun _ => inr tt).

Definition sample_problem (p_ : gmap string ParameterEntry)
  : MappingProblem unit nat unit unit :=
  mkMappingProblem tt p_ None None None.

End Zoltan2.

(** ** tpetra: [Tpetra::FECrsMatrix]

    Objects live in a store and are named by their address.  The flag
    [activeCrsMatrix_] is an [RCP<FEWhichActive>]: a possibly null
    reference to a cell that other objects may share. *)
Module Tpetra.
Section FECrsMatrix.

(** The enumeration and its two enumerators are declared in the class
    header, which is not among the sources: any type with decidable
    equality and two values of it. *)
Context {FEWhichActive : Type} `{EqDecision FEWhichActive}.
Variables FE_ACTIVE_OVERLAP FE_ACTIVE_LOCAL : FEWhichActive.

(** What the base class [crs_matrix_type] stores, and [Tpetra::CombineMode]. *)
Context {CrsMatrix CombineMode : Type}.

Record FECrsMatrix : Type := mkFECrsMatrix {
  crs_matrix : CrsMatrix;
  activeCrsMatrix_ : option positive;
  inactiveCrsMatrix_ : option positive
}.

Record Memory : Type := mkMemory {
  matrices : gmap positive FECrsMatrix;
  flags : gmap positive FEWhichActive
}.

(** [operator=], lines 84-90: [return *this;] *)
Definition operator_assign (this rhs : positive) (mem : Memory) : positive * Memory :=
  (this, mem).

Definition is_null {A} (rcp : option A) : bool :=
  match rcp with Some _ => false | None => true end.

(** [*activeCrsMatrix_] of the object at [this]; nothing when the object or
    the cell does not exist, or the RCP is null. *)
Definition active_flag (this : positive) (mem : Memory) : option FEWhichActive :=
  m ← matrices mem !! this;
  cell ← activeCrsMatrix_ m;
  flags mem !! cell.

(** [*activeCrsMatrix_ = value] *)
Definition set_active_flag (this : positive) (value : FEWhichActive) (mem : Memory)
  : option Memory :=
  m ← matrices mem !! this;
  cell ← activeCrsMatrix_ m;
  _ ← flags mem !! cell;
  Some (mkMemory (matrices mem) (<[cell := value]> (flags mem))).

(** [doOverlapToLocal], lines 92-98: the body of the [if] is empty. *)
Definition doOverlapToLocal (this : positive) (CM : CombineMode) (mem : Memory)
  : option Memory :=
  m ← matrices mem !! this;
  if negb (is_null (inactiveCrsMatrix_ m)) then
    flag ← active_flag this mem;
    if decide (flag = FE_ACTIVE_OVERLAP) then Some mem else Some mem
  else Some mem.

(** [doLocalToOverlap], lines 101-104. *)
Definition doLocalToOverlap (this : positive) (CM : CombineMode) (mem : Memory)
  : option Memory :=
  Some mem.

(** The value that [switchActiveCrsMatrix] stores for a flag it read:
    line 109 or line 111. *)
Definition toggled (flag : FEWhichActive) : FEWhichActive :=
  if decide (flag = FE_ACTIVE_OVERLAP) then FE_ACTIVE_LOCAL else FE_ACTIVE_OVERLAP.

(** [switchActiveCrsMatrix], lines 106-119. *)
Definition switchActiveCrsMatrix (this : positive) (mem : Memory) : option Memory :=
  flag ← active_flag this mem;
  mem' ← (if decide (flag = FE_ACTIVE_OVERLAP)
          then set_active_flag this FE_ACTIVE_LOCAL mem
          else set_active_flag this FE_ACTIVE_OVERLAP mem);
  m ← matrices mem' !! this;
  if is_null (inactiveCrsMatrix_ m) then Some mem'
  else Some mem'.

End FECrsMatrix.
Arguments FECrsMatrix : clear implicits.
Arguments Memory : clear implicits.

(** A small instance: the enumerators are 0 and 1, one matrix at address
    1 whose flag lives in cell 1 and reads [flag]. *)
Definition sample_memory (flag : Z) : Memory Z unit :=
  mkMemory {[ 1%positive := mkFECrsMatrix tt (Some 1%positive) None ]}
           {[ 1%positive := flag ]}.

(** Two matrices, at addresses 1 and 2, whose RCPs point to the same flag
    cell 1, and a third at address 3 with a flag cell of its own. *)
Definition sample_shared_memory (shared own : Z) : Memory Z unit :=
  mkMemory {[ 1%positive := mkFECrsMatrix tt (Some 1%positive) None;
              2%positive := mkFECrsMatrix tt (Some 1%positive) (Some 1%positive);
              3%positive := mkFECrsMatrix tt (Some 2%positive) None ]}
           {[ 1%positive := shared; 2%positive := own ]}.

End Tpetra.

(** ** rol: the [XROL::Objective] interface

    The work that the class hands to its [Impl] object is a call on that
    object; a member function is either finished or at such a call, with
    the rest of its body waiting for the answer. *)
Module XROL.

(** The types the class template and its member functions range over:
    the vector types [XPrim] and [XDual], [element_t<XPrim>] and
    [magnitude_t<XPrim>], and the types of the other arguments. *)
Class Types : Type := mkTypes {
  XPrim : Type;
  XDual : Type;
  Scalar : Type;
  Real : Type;
  Parameters : Type;
  ExtendedInterface : Type;
  Obj : Type;
  Stream : Type;
  ParameterList : Type;
  Report : Type
}.

(** The member functions of [Impl] that the class calls, with the type of
    what comes back (results and the arguments passed by reference). *)
Inductive ImplCall {T : Types} : Type -> Type :=
| Impl_gradient (self : Obj) (g : XDual) (x : XPrim) (tol : Scalar)
    : ImplCall (XDual * Scalar)
| Impl_dirDeriv (self : Obj) (x d : XPrim) : ImplCall Real
| Impl_hessVec (self : Obj) (hv : XDual) (v x : XPrim) (tol : Scalar)
    : ImplCall (XDual * Scalar)
| Impl_checkGradient (self : Obj) (x : XPrim) (g : XDual) (d : XPrim)
    (os : Stream) (parlist : ParameterList) : ImplCall Report
| Impl_checkHessVec (self : Obj) (x : XPrim) (hv : XDual) (v : XPrim)
    (os : Stream) (parlist : ParameterList) : ImplCall Report
| Impl_checkHessSym (self : Obj) (x : XPrim) (hv : XDual) (v : XPrim) (w : XDual)
    (os : Stream) (parlist : ParameterList) : ImplCall Report.

Inductive Body {T : Types} (R : Type) : Type :=
| Return (r : R)
| OnImpl {X : Type} (c : ImplCall X) (k : X -> Body R).
Arguments Return {T R} r.
Arguments OnImpl {T R X} c k.

(** [pObjImpl_->f(...)] as the whole body: the answer is the result. *)
Definition delegate {T : Types} {X} (c : ImplCall X) : Body X := OnImpl c Return.

(** Running a body against an implementation of [Impl]. *)
Fixpoint run {T : Types} {R} (impl : forall X, ImplCall X -> X) (b : Body R) : R :=
  match b with
  | Return r => r
  | OnImpl c k => run impl (k (impl _ c))
  end.

(** The number of calls on [Impl] a body makes. *)
Fixpoint Impl_calls {T : Types} {R} (impl : forall X, ImplCall X -> X) (b : Body R) : nat :=
  match b with
  | Return _ => 0%nat
  | OnImpl c k => S (Impl_calls impl (k (impl _ c)))
  end.

(** The data members, lines 78-81 ([pObjImpl_] is the callee above). *)
Record ObjectiveData {T : Types} : Type := mkObjectiveData {
  param_ : option Parameters
}.
Arguments mkObjectiveData {T} param_.

Section MemberFunctions.
Context {T : Types}.

(** [setParameters], lines 106-108 *)
Definition setParameters (param : option Parameters) (o : ObjectiveData)
  : Body ObjectiveData :=
  Return (mkObjectiveData param).

(** [access], lines 111-113 *)
Definition access (objEI : ExtendedInterface) : Body unit := Return tt.

(** [update], line 115 *)
Definition update (x : XPrim) : Body unit := Return tt.

(** [gradient], lines 119-121 *)
Definition gradient (self : Obj) (g : XDual) (x : XPrim) (tol : Scalar)
  : Body (XDual * Scalar) :=
  delegate (Impl_gradient self g x tol).

(** [dirDeriv], lines 123-125 *)
Definition dirDeriv (self : Obj) (x d : XPrim) (tol : Scalar) : Body Real :=
  delegate (Impl_dirDeriv self x d).

(** [hessVec], lines 127-129 *)
Definition hessVec (self : Obj) (hv : XDual) (v x : XPrim) (tol : Scalar)
  : Body (XDual * Scalar) :=
  delegate (Impl_hessVec self hv v x tol).

(** [invHessVec], lines 131-133: the vector [hv] and [tol] stay as passed. *)
Definition invHessVec (hv : XPrim) (v : XDual) (x : XPrim) (tol : Scalar)
  : Body (XPrim * Scalar) :=
  Return (hv, tol).

(** [precond], lines 135-137 *)
Definition precond (Pv : XPrim) (v : XDual) (x : XPrim) (tol : Scalar)
  : Body (XPrim * Scalar) :=
  Return (Pv, tol).

(** [checkGradient], [checkHessVec], [checkHessSym], lines 139-153 (not virtual) *)
Definition checkGradient (self : Obj) (x : XPrim) (g : XDual) (d : XPrim)
    (os : Stream) (parlist : ParameterList) : Body Report :=
  delegate (Impl_checkGradient self x g d os parlist).

Definition checkHessVec (self : Obj) (x : XPrim) (hv : XDual) (v : XPrim)
    (os : Stream) (parlist : ParameterList) : Body Report :=
  delegate (Impl_checkHessVec self x hv v os parlist).

Definition checkHessSym (self : Obj) (x : XPrim) (hv : XDual) (v : XPrim) (w : XDual)
    (os : Stream) (parlist : ParameterList) : Body Report :=
  delegate (Impl_checkHessSym self x hv v w os parlist).

End MemberFunctions.

(** The virtual member functions as a table: a class derived from
    [Objective] supplies [value] and inherits the rest unless it
    overrides them. *)
Record Objective {T : Types} : Type := mkObjective {
  v_setParameters : option Parameters -> ObjectiveData -> Body ObjectiveData;
  v_access : ExtendedInterface -> Body unit;
  v_update : XPrim -> Body unit;
  v_value : XPrim -> Real -> Body (Real * Real);
  v_gradient : Obj -> XDual -> XPrim -> Scalar -> Body (XDual * Scalar);
  v_dirDeriv : Obj -> XPrim -> XPrim -> Scalar -> Body Real;
  v_hessVec : Obj -> XDual -> XPrim -> XPrim -> Scalar -> Body (XDual * Scalar);
  v_invHessVec : XPrim -> XDual -> XPrim -> Scalar -> Body (XPrim * Scalar);
  v_precond : XPrim -> XDual -> XPrim -> Scalar -> Body (XPrim * Scalar)
}.
Arguments mkObjective {T} _ _ _ _ _ _ _ _ _.

(** The table of a derived class that overrides nothing: [value] is pure
    virtual (line 117) and must come from the derived class. *)
Definition derived {T : Types} (value : XPrim -> Real -> Body (Real * Real)) : Objective :=
  mkObjective setParameters access update value gradient dirDeriv hessVec
              invHessVec precond.

(** A body that is one call on [Impl] whose answer is returned as it is. *)
Definition pure_delegation {T : Types} {R} (b : Body R) : Prop :=
  exists c : ImplCall R, b = delegate c.

(** A body that returns without a call on [Impl]. *)
Definition no_delegation {T : Types} {R} (b : Body R) : Prop :=
  exists r : R, b = Return r.

(** All seven member functions [update], [access], [gradient], [dirDeriv],
    [hessVec], [invHessVec] and [precond] hand their work to [Impl]. *)
Definition all_seven_delegate {T : Types} : Prop :=
  (forall x, pure_delegation (update x)) /\
  (forall objEI, pure_delegation (access objEI)) /\
  (forall self g x tol, pure_delegation (gradient self g x tol)) /\
  (forall self x d tol, pure_delegation (dirDeriv self x d tol)) /\
  (forall self hv v x tol, pure_delegation (hessVec self hv v x tol)) /\
  (forall hv v x tol, pure_delegation (invHessVec hv v x tol)) /\
  (forall Pv v x tol, pure_delegation (precond Pv v x tol)).

(** One-point types, and an implementation of [Impl] over them. *)
Definition unit_Types : Types := mkTypes unit unit unit unit unit unit unit unit unit unit.

Definition unit_Impl (X : Type) (c : @ImplCall unit_Types X) : X :=
  match c with
  | Impl_gradient _ _ _ _ => (tt, tt)
  | Impl_dirDeriv _ _ _ => tt
  | Impl_hessVec _ _ _ _ _ => (tt, tt)
  | Impl_checkGradient _ _ _ _ _ _ => tt
  | Impl_checkHessVec _ _ _ _ _ _ => tt
  | Impl_checkHessSym _ _ _ _ _ _ _ => tt
  end.

End XROL.

(** ** zoltan: the captured output of [zdrive] on [zdrive.inp.rib-partlocal2]

    The log is kept line by line as it was captured; the statistics are
    read off its lines. *)
Module ZoltanLog.
Local Open Scope string_scope.

Definition log : list string :=
  [ "";
    "Reading the command file, zdrive.inp.rib-partlocal2";
    "Input values:";
    "  Zoltan version 3.601";
    "  zdrive version 1.0";
    "  Total number of Processors = 5";
    "";
    "  Performing load balance using rib.";
    "	Parameters:";
    "		keep_cuts 1";
    "		debug_level 3";
    "		timer cpu";
    "";
    "  Initially distribute input objects in linear fashion (first n/p to process 0, etc).";
    "##########################################################";
    "ZOLTAN Load balancing method = 8 (RIB)";
    "Starting iteration 1";
    "";
    "BEFORE load balancing";
    "DRIVER EVAL:  load:  max 76.000000  min 76.000000  sum 380.000000";
    "DRIVER EVAL:  objs:  max 76  min 76  sum 380";
    "DRIVER EVAL:  cuts:  max 42  min 21  sum 168";
    "";
    "Zoltan_LB_Eval_Balance  Part count: 4 requested, 5 actual , 5 non-empty";
    "Zoltan_LB_Eval_Balance  Statistics with respect to 5 parts: ";
    "Zoltan_LB_Eval_Balance                             Min      Max      Sum  Imbalance";
    "Zoltan_LB_Eval_Balance  Number of objects  :        76       76      380     ----";
    "";
    "";
    "";
    "Zoltan_LB_Eval_Graph  Part count: 4 requested, 5 actual, 5 non-empty";
    "Zoltan_LB_Eval_Graph  Statistics with respect to 5 parts: ";
    "Zoltan_LB_Eval_Graph                             Min      Max      Sum  Imbalance";
    "Zoltan_LB_Eval_Graph  Number of objects  :        76       76      380    ----";
    "";
    "Zoltan_LB_Eval_Graph  Statistics with respect to 5 parts: ";
    "Zoltan_LB_Eval_Graph                                    Min      Max    Average    Sum";
    "Zoltan_LB_Eval_Graph  Num boundary objects      :        20       40       32      160";
    "Zoltan_LB_Eval_Graph  Number of cut edges       :        21       42     33.6      168";
    "Zoltan_LB_Eval_Graph  Num Nbor Parts            :         1        2      1.6        8";
    "";
    "";
    "";
    "Zoltan_LB_Eval_HG  Part count: 4 requested, 5 actual, 5 non-empty";
    "Zoltan_LB_Eval_HG  Statistics with respect to 5 parts: ";
    "Zoltan_LB_Eval_HG                            Min      Max     Sum  Imbalance";
    "Zoltan_LB_Eval_HG  Number of objects :        76       76      380   ----";
    "Zoltan_LB_Eval_HG  Object weight     :        76       76      380   ----";
    "";
    "Zoltan_LB_Eval_HG  CUTN (Sum_edges( (#parts(edge)>1)*ewgt )):  160.000";
    "Zoltan_LB_Eval_HG  CUTL (Sum_edges( (#parts(edge)-1)*ewgt )):  160.000";
    "Zoltan_LB_Eval_HG  CUTL-MAX (Max_parts( comm. volume ):         40.000";
    "";
    "";
    "Build configuration:";
    "";
    "  ZOLTAN_ID_TYPE: unsigned long (8 bytes)";
    "  ZOLTAN_GNO_TYPE: ssize_t, (8 bytes)";
    "  MPI_Datatype for ZOLTAN_ID_TYPE: MPI_UNSIGNED_LONG";
    "  MPI_Datatype for ZOLTAN_GNO_TYPE: MPI_LONG";
    "  Third party library: ParMetis version 3.1";
    "  Third party library: PTScotch   Third party library: Scotch ";
    "ZOLTAN Parameter IMBALANCE_TOL[0] = 1.100000";
    "ZOLTAN Parameter AUTO_MIGRATE = FALSE";
    "ZOLTAN Parameter MIGRATE_ONLY_PROC_CHANGES = 1";
    "ZOLTAN Parameter OBJ_WEIGHT_DIM = 0";
    "ZOLTAN Parameter EDGE_WEIGHT_DIM = 0";
    "ZOLTAN Parameter DEBUG_LEVEL = 3";
    "ZOLTAN Parameter DEBUG_PROCESSOR = 0";
    "ZOLTAN Parameter DETERMINISTIC = TRUE";
    "ZOLTAN Parameter TIMER = 2 (cpu)";
    "ZOLTAN Parameter NUM_GID_ENTRIES = 1";
    "ZOLTAN Parameter NUM_LID_ENTRIES = 1";
    "ZOLTAN Parameter RETURN_LISTS = IMPORT AND EXPORT";
    "ZOLTAN Parameter NUM_GLOBAL_PARTS = -1";
    "ZOLTAN Parameter NUM_LOCAL_PARTS = -1";
    "ZOLTAN Parameter REMAP = 1";
    "ZOLTAN Parameter SEED = 1220988223 (1220988223)";
    "ZOLTAN Parameter LB_APPROACH = repartition";
    "ZOLTAN Parameter RIB_OVERALLOC = 1.200000";
    "ZOLTAN Parameter CHECK_GEOM = 1";
    "ZOLTAN Parameter RIB_OUTPUT_LEVEL = 0";
    "ZOLTAN Parameter AVERAGE_CUTS = 0";
    "ZOLTAN Parameter KEEP_CUTS = 1";
    "ZOLTAN Parameter REDUCE_DIMENSIONS = 0";
    "ZOLTAN Parameter DEGENERATE_RATIO = 0.000000";
    "ZOLTAN Parameter FINAL_OUTPUT = 0";
    "ZOLTAN Parameter KEEP_CUTS = 1";
    "ZOLTAN Parameter REDUCE_DIMENSIONS = 0";
    "ZOLTAN Parameter DEGENERATE_RATIO = 10.000000";
    "Partitioning total time: 0.01 (secs)";
    " Start-up time %: ave = 0, min = 0, max = 0";
    " Pre-median time %: ave = 0, min = 0, max = 0";
    " Median time %: ave = 0, min = 0, max = 0";
    " Comm time %: ave = 20, min = 0, max = 100";
    "ZOLTAN RIB Times:  ";
    "ZOLTAN       Build:       : Max: 0, Sum: 0, Imbal.: N.A.";
    "ZOLTAN         RIB:         : Max: 0.01, Sum: 0.01, Imbal.: 5";
    "ZOLTAN Times:  ";
    "ZOLTAN     Partition:     : Max: 0.01, Sum: 0.02, Imbal.: 2.5";
    "";
    "DRIVER:  Zoltan_LB_Partition time = 0.014395";
    "DRIVER:  new_decomp 1 Min/Max Import: 0 257";
    "DRIVER:  new_decomp 1 Min/Max Export: 48 76";
    "DRIVER:  Total migration time = 0.00107002";
    "";
    "AFTER load balancing";
    "DRIVER EVAL:  load:  max 285.000000  min 0.000000  sum 380.000000";
    "DRIVER EVAL:  objs:  max 285  min 0  sum 380";
    "DRIVER EVAL:  cuts:  max 19  min 0  sum 38";
    "";
    "Zoltan_LB_Eval_Balance  Part count: 4 requested, 4 actual , 4 non-empty";
    "Zoltan_LB_Eval_Balance  Statistics with respect to 4 parts: ";
    "Zoltan_LB_Eval_Balance                             MinProc 4: Calls to malloc = 698,  Calls to free = 698";
    "Proc 1: Calls to malloc = 817,  Calls to free = 817";
    "Proc 2: Calls to malloc = 688,  Calls to free = 688";
    "Proc 3: Calls to malloc = 854,  Calls to free = 854";
    "Proc 0: Calls to malloc = 672,  Calls to free = 672";
    "      Max      Sum  Imbalance";
    "Zoltan_LB_Eval_Balance  Number of objects  :        95       95      380     1.000";
    "";
    "";
    "";
    "Zoltan_LB_Eval_Graph  Part count: 4 requested, 4 actual, 4 non-empty";
    "Zoltan_LB_Eval_Graph  Statistics with respect to 4 parts: ";
    "Zoltan_LB_Eval_Graph                             Min      Max      Sum  Imbalance";
    "Zoltan_LB_Eval_Graph  Number of objects  :        95       95      380        1";
    "";
    "Zoltan_LB_Eval_Graph  Statistics with respect to 4 parts: ";
    "Zoltan_LB_Eval_Graph                                    Min      Max    Average    Sum";
    "Zoltan_LB_Eval_Graph  Num boundary objects      :        19       32     22.5       90";
    "Zoltan_LB_Eval_Graph  Number of cut edges       :        19       36       25      100";
    "Zoltan_LB_Eval_Graph  Num Nbor Parts            :         2        3      2.5       10";
    "";
    "";
    "";
    "Zoltan_LB_Eval_HG  Part count: 4 requested, 4 actual, 4 non-empty";
    "Zoltan_LB_Eval_HG  Statistics with respect to 4 parts: ";
    "Zoltan_LB_Eval_HG                            Min      Max     Sum  Imbalance";
    "Zoltan_LB_Eval_HG  Number of objects :        95       95      380   1.000";
    "Zoltan_LB_Eval_HG  Object weight     :        95       95      380   1.000";
    "";
    "Zoltan_LB_Eval_HG  CUTN (Sum_edges( (#parts(edge)>1)*ewgt )):   90.000";
    "Zoltan_LB_Eval_HG  CUTL (Sum_edges( (#parts(edge)-1)*ewgt )):   94.000";
    "Zoltan_LB_Eval_HG  CUTL-MAX (Max_parts( comm. volume ):         75.000";
    "";
    "";
    "FILE zdrive.inp.rib-partlocal2:  Total:    1.439500e-02 seconds in Partitioning";
    "FILE zdrive.inp.rib-partlocal2:  Average:  1.439500e-02 seconds per Iteration";
    "" ].

Local Close Scope string_scope.

Definition is_blank (c : ascii) : bool :=
  (Ascii.eqb c " " || Ascii.eqb c "009")%char.

Definition flush (current : list ascii) : list string :=
  match current with
  | [] => []
  | _ => [string_of_list_ascii (rev current)]
  end.

(** The blank-separated fields of a line. *)
Fixpoint fields_from (current : list ascii) (line : string) : list string :=
  match line with
  | EmptyString => flush current
  | String c rest =>
      if is_blank c then flush current ++ fields_from [] rest
      else fields_from (c :: current) rest
  end.

Definition fields (line : string) : list string := fields_from [] line.

Definition digit (c : ascii) : option Z :=
  let n := Z.of_N (N_of_ascii c) in
  if (48 <=? n) && (n <=? 57) then Some (n - 48) else None.

Fixpoint number_from (acc : Z) (s : string) : option Z :=
  match s with
  | EmptyString => Some acc
  | String c rest =>
      match digit c with
      | Some d => number_from (10 * acc + d) rest
      | None => None
      end
  end.

(** A field that is a decimal count. *)
Definition number (s : string) : option Z :=
  match s with
  | EmptyString => None
  | _ => number_from 0 s
  end.

Record Stats : Type := mkStats { Min : Z; Max : Z; Sum : Z }.

Definition stats (min max sum : string) : option Stats :=
  mn ← number min; mx ← number max; sm ← number sum; Some (mkStats mn mx sm).

Definition field_is (expected field : string) : bool := String.eqb expected field.

(** The row [<tool>  Number of objects  :  Min  Max  Sum  Imbalance] of a
    [Zoltan_LB_Eval_*] table. *)
Definition table_row (line : string) : option Stats :=
  match fields line with
  | _ :: w1 :: w2 :: w3 :: colon :: min :: max :: sum :: _ =>
      if field_is "Number" w1 && field_is "of" w2 && field_is "objects" w3
         && field_is ":" colon
      then stats min max sum
      else None
  | _ => None
  end.

(** The line [DRIVER EVAL:  objs:  max M  min m  sum s]. *)
Definition driver_row (line : string) : option Stats :=
  match fields line with
  | [w1; w2; w3; kmax; max; kmin; min; ksum; sum] =>
      if field_is "DRIVER" w1 && field_is "EVAL:" w2 && field_is "objs:" w3
         && field_is "max" kmax && field_is "min" kmin && field_is "sum" ksum
      then stats min max sum
      else None
  | _ => None
  end.

Definition object_count_row (line : string) : option Stats :=
  match table_row line with
  | Some r => Some r
  | None => driver_row line
  end.

Definition object_counts (lines : list string) : list Stats :=
  omap object_count_row lines.

(** The lines up to the heading [AFTER load balancing], and from it on. *)
Fixpoint split_at_after (lines : list string) : list string * list string :=
  match lines with
  | [] => ([], [])
  | l :: rest =>
      if String.eqb l "AFTER load balancing" then ([], l :: rest)
      else let (before, after) := split_at_after rest in (l :: before, after)
  end.

Definition counts_before : list Stats := object_counts (fst (split_at_after log)).

Definition counts_after : list Stats := object_counts (snd (split_at_after log)).

Definition well_formed (r : Stats) : bool :=
  (Min r <=? Max r) && (Max r <=? Sum r).

End ZoltanLog.

(* ===================================================================== *)
(** * Part II: lemmas and theorems *)
(* ===================================================================== *)

(** ** The unit-test harness *)
Section Harness.
Import Teuchos.

Lemma bind_unfold {A B} (m : Test A) (k : A -> Test B) (s : TestState) :
  (m ≫= k) s = match m s with
               | Done a s' => k a s'
               | Threw e s' => Threw e s'
               | Undefined => Undefined
               end.
Proof. reflexivity. Qed.

Lemma assert_fails {B} (line : nat) (test : string) (c : bool) (k : unit -> Test B)
    (s : TestState) :
  c = false -> (TEUCHOS_ASSERT line test c ≫= k) s = Threw (logic_error line test) s.
Proof. intros ->. reflexivity. Qed.

Lemma assert_holds {B} (line : nat) (test : string) (c : bool) (k : unit -> Test B)
    (s : TestState) :
  c = true -> (TEUCHOS_ASSERT line test c ≫= k) s = k tt s.
Proof. intros ->. reflexivity. Qed.

Lemma tame_ret {A} (a : A) : tame (mret a).
Proof. intros s. simpl. auto. Qed.

Lemma tame_bind {A B} (m : Test A) (k : A -> Test B) :
  tame m -> (forall a, tame (k a)) -> tame (m ≫= k).
Proof.
  intros Hm Hk s. rewrite bind_unfold.
  specialize (Hm s). destruct (m s) as [a s1 | e s1 | ]; auto.
  specialize (Hk a s1). destruct (k a s1); auto.
Qed.

Lemma tame_call {A} (r : Result A) : tame (call r).
Proof. intros s. destruct r; simpl; eauto. Qed.

Lemma tame_undefined {A} : tame (@undefined A).
Proof. intros s. exact I. Qed.

Lemma tame_assert_true (line : nat) (test : string) : tame (TEUCHOS_ASSERT line test true).
Proof. intros s. simpl. auto. Qed.

Lemma tame_compared (v1 v2 : Z) (passed : bool) : tame (compared v1 v2 passed).
Proof. intros s. simpl. intros H. apply andb_true_iff in H. tauto. Qed.

Lemma tame_TEST_EQUALITY (v1 v2 : Z) : tame (TEST_EQUALITY v1 v2).
Proof. apply tame_compared. Qed.

Lemma tame_TEST_COMPARE_gt (v1 v2 : Z) : tame (TEST_COMPARE_gt v1 v2).
Proof. apply tame_compared. Qed.

Lemma tame_at (v : list Z) (i : nat) : tame (at_ v i).
Proof. intros s. unfold at_. destruct (v !! i); simpl; auto. Qed.

Lemma tame_at_int (v : list Z) (i : Z) : tame (at_int v i).
Proof. unfold at_int. destruct (i <? 0); [apply tame_undefined | apply tame_at]. Qed.

Lemma tame_deref (it : option Z) : tame (deref it).
Proof. intros s. destruct it; simpl; auto. Qed.

Lemma tame_for_range (body : nat -> Test unit) :
  (forall i, tame (body i)) -> forall n start, tame (for_range start n body).
Proof.
  intros Hbody. induction n as [| n IH]; intros start; simpl.
  - apply (tame_ret tt).
  - apply (tame_bind (body start)); auto.
Qed.

End Harness.

Create HintDb tame.
#[export] Hint Resolve tame_call tame_undefined tame_assert_true
  tame_TEST_EQUALITY tame_TEST_COMPARE_gt tame_at tame_at_int tame_deref : tame.

(** Splits a body into its statements and closes each with the hints. *)
Ltac tame_steps :=
  repeat lazymatch goal with
    | |- Teuchos.tame (mret _) => apply tame_ret
    | |- Teuchos.tame (_ ≫= _) => apply tame_bind; [ | intros ? ]
    | |- _ => solve [ auto with tame ]
    end.

(** ** The panzer test file *)
Section PanzerTests.
Import Teuchos panzer.

Lemma tame_store (data : FieldContainer) (i : nat) (x : Z) : tame (store data i x).
Proof. unfold store. case_decide; [apply tame_ret | apply tame_undefined]. Qed.

Lemma tame_set2 (data : FieldContainer) (e f : nat) (x : Z) : tame (set2 data e f x).
Proof.
  unfold set2. destruct (dims data) as [| d0 [| d1 [| d2 ds]]]; auto with tame.
  apply tame_store.
Qed.

Lemma tame_set3 (data : FieldContainer) (e f c : nat) (x : Z) : tame (set3 data e f c x).
Proof.
  unfold set3. destruct (dims data) as [| d0 [| d1 [| d2 [| d3 ds]]]]; auto with tame.
  apply tame_store.
Qed.

Lemma tame_for_fold {L} (body : nat -> L -> Test L) :
  (forall i acc, tame (body i acc)) -> forall n start acc, tame (for_fold start n body acc).
Proof.
  intros Hbody. induction n as [| n IH]; intros start acc; simpl.
  - apply tame_ret.
  - apply tame_bind; auto.
Qed.

Lemma tame_fillFieldContainer (fieldNum : Z) (blockId : string) (ugi : UniqueGlobalIndexer) :
  tame (fillFieldContainer fieldNum blockId ugi).
Proof.
  unfold fillFieldContainer. tame_steps.
  apply tame_for_fold. intros e data. tame_steps.
  apply tame_for_fold. intros f data'. tame_steps. apply tame_set2.
Qed.

Lemma tame_fillFieldContainer_cols (fieldNum : Z) (blockId : string)
    (ugi : UniqueGlobalIndexer) (cols : nat) :
  tame (fillFieldContainer_cols fieldNum blockId ugi cols).
Proof.
  unfold fillFieldContainer_cols. tame_steps.
  apply tame_for_fold. intros e data. tame_steps.
  apply tame_for_fold. intros f data'.
  apply tame_for_fold. intros c data''. tame_steps. apply tame_set3.
Qed.

Lemma tame_fill_block (ugi : UniqueGlobalIndexer) (name blockId : string)
    (data : gmap string FieldContainer) :
  tame (fill_block ugi name blockId data).
Proof. unfold fill_block. tame_steps. apply tame_fillFieldContainer. Qed.

Lemma tame_fill_block_cols (ugi : UniqueGlobalIndexer) (name blockId : string)
    (data : gmap string FieldContainer) (cols : nat) :
  tame (fill_block_cols ugi name blockId data cols).
Proof. unfold fill_block_cols. tame_steps. apply tame_fillFieldContainer_cols. Qed.

Lemma tame_expect (v : list Z) (i : nat) (expected : Z) : tame (expect v i expected).
Proof. unfold expect. tame_steps. Qed.

Lemma tame_copy_of_column (mv : MultiVector) (c : nat) : tame (copy_of_column mv c).
Proof. unfold copy_of_column. tame_steps. Qed.

End PanzerTests.

#[export] Hint Resolve tame_store tame_set2 tame_set3 tame_fillFieldContainer
  tame_fillFieldContainer_cols tame_fill_block tame_fill_block_cols tame_expect
  tame_copy_of_column : tame.

Section PanzerAssertions.
Import Teuchos panzer.

(** With two processes and rank 0 or 1 every statement of a test is tame. *)
Ltac tame_test :=
  let lib := fresh "lib" in
  let r := fresh "myRank" in
  intros lib r [-> | ->]; tame_steps; cbn [Z.eqb Pos.eqb];
  match goal with |- tame (?block _) => unfold block
                | |- tame (?block _ _) => unfold block
                | |- tame (?block _ _ _ _) => unfold block
                | |- tame (?block _ _ _ _ _) => unfold block
  end;
  tame_steps.

Lemma tame_GhostedFieldVector_checks (myRank : Z) (sharedIndices ghostedFields : list Z) :
  myRank = 0 \/ myRank = 1 ->
  tame (GhostedFieldVector_checks myRank sharedIndices ghostedFields).
Proof.
  intros [-> | ->]; unfold GhostedFieldVector_checks; tame_steps.
  - apply tame_for_range. intros i. tame_steps.
  - unfold rank_branch. cbn [Z.eqb Pos.eqb]. unfold GhostedFieldVector_rank0. tame_steps.
  - apply tame_for_range. intros i. tame_steps.
  - unfold rank_branch. cbn [Z.eqb Pos.eqb]. unfold GhostedFieldVector_rank1. tame_steps.
Qed.

Lemma tame_GhostedFieldVector (lib : Library) (myRank : Z) :
  myRank = 0 \/ myRank = 1 -> tame (GhostedFieldVector lib myRank 2).
Proof.
  intros H. unfold GhostedFieldVector. tame_steps.
  now apply tame_GhostedFieldVector_checks.
Qed.

Lemma tame_updateGhostedDataVector (lib : Library) (myRank : Z) :
  myRank = 0 \/ myRank = 1 -> tame (updateGhostedDataVector lib myRank 2).
Proof. revert lib myRank. unfold updateGhostedDataVector. tame_test. Qed.

Lemma tame_ArrayToFieldVector_ghost (lib : Library) (myRank : Z) :
  myRank = 0 \/ myRank = 1 -> tame (ArrayToFieldVector_ghost lib myRank 2).
Proof. revert lib myRank. unfold ArrayToFieldVector_ghost. tame_test. Qed.

Lemma tame_ArrayToFieldVector_test (lib : Library) (myRank : Z) :
  myRank = 0 \/ myRank = 1 -> tame (ArrayToFieldVector_test lib myRank 2).
Proof. revert lib myRank. unfold ArrayToFieldVector_test. tame_test. Qed.

Lemma tame_ArrayToFieldVector_multicol_column (myRank : Z)
    (reducedUDataVector reducedTDataVector : MultiVector) (c : nat) :
  myRank = 0 \/ myRank = 1 ->
  tame (ArrayToFieldVector_multicol_column myRank reducedUDataVector reducedTDataVector c).
Proof.
  revert reducedUDataVector myRank. unfold ArrayToFieldVector_multicol_column. tame_test.
Qed.

Lemma tame_ArrayToFieldVector_multicol (lib : Library) (myRank : Z) :
  myRank = 0 \/ myRank = 1 -> tame (ArrayToFieldVector_multicol lib myRank 2).
Proof.
  intros H. unfold ArrayToFieldVector_multicol. tame_steps.
  apply tame_for_range. intros c.
  now apply tame_ArrayToFieldVector_multicol_column.
Qed.

(** With another process count the test stops at its first assertion. *)
Ltac stops_at_first_assertion test :=
  intros; unfold test; apply assert_fails; now apply Z.eqb_neq.

Lemma requires_two_processes_intro
    (test : Library -> Z -> Z -> Test unit) (lines : nat * nat) :
  (forall lib myRank numProcs s,
     numProcs <> 2 ->
     test lib myRank numProcs s = Threw (logic_error (fst lines) "numProcs==2") s) ->
  (forall lib myRank, myRank = 0 \/ myRank = 1 -> tame (test lib myRank 2)) ->
  requires_two_processes test lines.
Proof.
  intros Hstops Htame lib myRank numProcs s. split.
  - apply Hstops.
  - intros -> Hrank s' Hthrew.
    specialize (Htame lib myRank Hrank s). rewrite Hthrew in Htame.
    destruct Htame as [what Hwhat]. discriminate Hwhat.
Qed.

Lemma GhostedFieldVector_requires :
  requires_two_processes GhostedFieldVector (46, 97)%nat.
Proof.
  apply requires_two_processes_intro; [| apply tame_GhostedFieldVector].
  stops_at_first_assertion GhostedFieldVector.
Qed.

Lemma updateGhostedDataVector_requires :
  requires_two_processes updateGhostedDataVector (147, 213)%nat.
Proof.
  apply requires_two_processes_intro; [| apply tame_updateGhostedDataVector].
  stops_at_first_assertion updateGhostedDataVector.
Qed.

Lemma ArrayToFieldVector_ghost_requires :
  requires_two_processes ArrayToFieldVector_ghost (230, 290)%nat.
Proof.
  apply requires_two_processes_intro; [| apply tame_ArrayToFieldVector_ghost].
  stops_at_first_assertion ArrayToFieldVector_ghost.
Qed.

Lemma ArrayToFieldVector_test_requires :
  requires_two_processes ArrayToFieldVector_test (307, 357)%nat.
Proof.
  apply requires_two_processes_intro; [| apply tame_ArrayToFieldVector_test].
  stops_at_first_assertion ArrayToFieldVector_test.
Qed.

Lemma ArrayToFieldVector_multicol_requires :
  requires_two_processes ArrayToFieldVector_multicol (374, 429)%nat.
Proof.
  apply requires_two_processes_intro; [| apply tame_ArrayToFieldVector_multicol].
  stops_at_first_assertion ArrayToFieldVector_multicol.
Qed.

End PanzerAssertions.

(** ** The definitions at work *)
Section PanzerExamples.
Import Teuchos panzer.

Example min_element_first_smallest : min_element [3; 1; 2; 1] = Some 1.
Proof. reflexivity. Qed.

Example min_element_of_nothing : min_element [] = None.
Proof. reflexivity. Qed.

Example fillFieldContainer_U :
  fillFieldContainer 0 "block_0" (sample_indexer []) fresh
  = Done (mkFC [1; 4]%nat [0; 2; 4; 6]) fresh.
Proof. reflexivity. Qed.

Example fillFieldContainer_T_cols :
  fillFieldContainer_cols 1 "block_0" (sample_indexer []) 2 fresh
  = Done (mkFC [1; 4; 2]%nat [1; 2; 3; 4; 5; 6; 7; 8]) fresh.
Proof. reflexivity. Qed.

(** Three processes: the first assertion throws, nothing was compared. *)
Example three_processes :
  GhostedFieldVector (sample_library (seqZ 0 14) (expected_ghostedFields 0)) 0 3 fresh
  = Threw (logic_error 46 "numProcs==2") fresh.
Proof. reflexivity. Qed.

(** Two processes, rank 0, the table of rank 0: sixteen comparisons, all passed. *)
Example rank0_run :
  exists s,
    GhostedFieldVector (sample_library (seqZ 0 14) (expected_ghostedFields 0)) 0 2 fresh
    = Done tt s /\ success s = true /\ length (evaluated s) = 16%nat.
Proof. eexists. split; [vm_compute; reflexivity | split; reflexivity]. Qed.

(** The table of rank 1 on rank 0: the test runs to its end and fails. *)
Example rank0_run_wrong_table :
  exists s,
    GhostedFieldVector (sample_library (seqZ 0 14) (expected_ghostedFields 1 ++ [0; 1]))
      0 2 fresh
    = Done tt s /\ success s = false.
Proof. eexists. split; [vm_compute; reflexivity | reflexivity]. Qed.

(** Thirteen entries on rank 0: the test reads past the end of the vector. *)
Example rank0_run_short :
  GhostedFieldVector (sample_library (seqZ 0 13) (take 13 (expected_ghostedFields 0)))
    0 2 fresh
  = Undefined.
Proof. vm_compute. reflexivity. Qed.

(** A rank other than 0 and 1 would end in the final assertion. *)
Example rank2_run :
  exists s,
    GhostedFieldVector (sample_library (seqZ 0 14) (expected_ghostedFields 0)) 2 2 fresh
    = Threw (logic_error 97 "false") s.
Proof. eexists. vm_compute. reflexivity. Qed.

(** The calls of the other tests are not answered by the sample library. *)
Example updateGhostedDataVector_run :
  updateGhostedDataVector (sample_library [] []) 0 2 fresh
  = Threw (library_error "not provided") fresh.
Proof. reflexivity. Qed.

End PanzerExamples.

(** ** What the GhostedFieldVector test accepts *)
Section GhostedFieldVectorTest.
Import Teuchos panzer.

Lemma bind_done_inv {A B} (m : Test A) (k : A -> Test B) (s s' : TestState) (b : B) :
  (m ≫= k) s = Done b s' -> exists a s1, m s = Done a s1 /\ k a s1 = Done b s'.
Proof.
  rewrite bind_unfold. destruct (m s) as [a s1 | e s1 | ]; try discriminate.
  intros H. eauto.
Qed.

Lemma tame_done {A} (m : Test A) (s s' : TestState) (a : A) :
  tame m -> m s = Done a s' -> success s' = true -> success s = true.
Proof. intros Hm Hrun. specialize (Hm s). rewrite Hrun in Hm. exact Hm. Qed.

Lemma silent_ret {A} (a : A) : silent (mret a).
Proof. intros s a' s' H. now inversion H. Qed.

Lemma silent_bind {A B} (m : Test A) (k : A -> Test B) :
  silent m -> (forall a, silent (k a)) -> silent (m ≫= k).
Proof.
  intros Hm Hk s b s' H. apply bind_done_inv in H as (a & s1 & H1 & H2).
  apply Hm in H1. apply Hk in H2. congruence.
Qed.

Lemma silent_at (v : list Z) (i : nat) : silent (at_ v i).
Proof. intros s a s'. unfold at_. destruct (v !! i); intros H; now inversion H. Qed.

Lemma silent_for_range (body : nat -> Test unit) :
  (forall i, silent (body i)) -> forall n start, silent (for_range start n body).
Proof.
  intros Hbody. induction n as [| n IH]; intros start; simpl.
  - apply (silent_ret tt).
  - apply (silent_bind (body start)); auto.
Qed.

(** The loop that prints the pairs [sharedIndices[i]:ghostedFields[i]]. *)
Lemma print_loop_done (sharedIndices ghostedFields : list Z) (s : TestState) :
  forall n start,
    (start + n <= length sharedIndices)%nat ->
    (start + n <= length ghostedFields)%nat ->
    for_range start n
      (fun i => at_ sharedIndices i ≫= fun _ => at_ ghostedFields i ≫= fun _ => mret tt) s
    = Done tt s.
Proof.
  induction n as [| n IH]; intros start H1 H2; simpl; [reflexivity |].
  unfold bind at 1. rewrite !bind_unfold. unfold at_.
  destruct (lookup_lt_is_Some_2 sharedIndices start) as [x ->]; [lia |].
  destruct (lookup_lt_is_Some_2 ghostedFields start) as [y ->]; [lia |].
  simpl. apply IH; lia.
Qed.

(** [std::min_element] finds a lower bound of the vector. *)
Lemma min_from_lower_bound (v : list Z) :
  forall best, min_from best v <= best /\ Forall (fun x => min_from best v <= x) v.
Proof.
  induction v as [| x v IH]; intros best; simpl.
  - split; [lia | constructor].
  - destruct (IH (if x <? best then x else best)) as [Hle Hall].
    destruct (Z.ltb_spec x best); split; try lia; constructor; try lia; exact Hall.
Qed.

Lemma min_element_lower_bound (v : list Z) (smallest : Z) :
  min_element v = Some smallest -> Forall (fun x => smallest <= x) v.
Proof.
  destruct v as [| x v]; simpl; [discriminate |].
  intros [= <-]. destruct (min_from_lower_bound v x) as [Hle Hall].
  constructor; assumption.
Qed.

Lemma min_element_member (v : list Z) (smallest : Z) :
  min_element v = Some smallest -> In smallest v.
Proof.
  destruct v as [| x v]; simpl; [discriminate |].
  intros [= <-]. revert x. induction v as [| y v IH]; intros x; simpl; [auto |].
  destruct (IH (if y <? x then y else x)) as [H | H]; [| auto].
  destruct (y <? x); auto.
Qed.

Lemma validated_inv (myRank : Z) (sharedIndices ghostedFields : list Z) :
  validated myRank sharedIndices ghostedFields ->
  length ghostedFields = length sharedIndices /\
  (exists smallest, min_element ghostedFields = Some smallest /\ -1 < smallest) /\
  (exists s s', success s = true /\
                rank_branch myRank ghostedFields s = Done tt s' /\ success s' = true).
Proof.
  intros (s' & Hrun & Hs'). unfold GhostedFieldVector_checks in Hrun.
  apply bind_done_inv in Hrun as ([] & s1 & H1 & Hrun).
  apply bind_done_inv in Hrun as (smallest & s2 & H2 & Hrun).
  apply bind_done_inv in Hrun as ([] & s3 & H3 & Hrun).
  apply bind_done_inv in Hrun as ([] & s4 & H4 & Hrun).
  assert (Hbranch : success s4 = true).
  { destruct (Z.eqb_spec myRank 0) as [-> | H0]; [| destruct (Z.eqb_spec myRank 1) as [-> | H1']].
    - eapply tame_done; [| exact Hrun | exact Hs'].
      unfold rank_branch. cbn [Z.eqb Pos.eqb]. unfold GhostedFieldVector_rank0. tame_steps.
    - eapply tame_done; [| exact Hrun | exact Hs'].
      unfold rank_branch. cbn [Z.eqb Pos.eqb]. unfold GhostedFieldVector_rank1. tame_steps.
    - unfold rank_branch in Hrun.
      rewrite (proj2 (Z.eqb_neq _ _) H0), (proj2 (Z.eqb_neq _ _) H1') in Hrun.
      discriminate Hrun. }
  apply silent_for_range in H4;
    [| intros i; apply silent_bind; [apply silent_at | intros _];
       apply silent_bind; [apply silent_at | intros _; apply silent_ret]].
  subst s4.
  unfold deref in H2. destruct (min_element ghostedFields) as [m |] eqn:Hmin; [| discriminate].
  injection H2 as -> ->.
  unfold TEST_COMPARE_gt, compared in H3. injection H3 as <-.
  unfold TEST_EQUALITY, compared in H1. injection H1 as <-.
  simpl in Hbranch. apply andb_true_iff in Hbranch as [Heq Hgt].
  apply Z.eqb_eq in Heq. apply Z.gtb_lt in Hgt. unfold size in Heq.
  split; [lia |]. split; [exists smallest; split; [reflexivity | lia] |].
  eexists _, s'. split; [| split; [exact Hrun | exact Hs']].
  simpl. apply andb_true_iff. split; [apply Z.eqb_eq; unfold size; lia | apply Z.gtb_lt; lia].
Qed.

End GhostedFieldVectorTest.

Section GhostedFieldVectorTables.
Import Teuchos panzer.

Lemma validated_intro (myRank : Z) (sharedIndices ghostedFields : list Z) (smallest : Z) :
  length ghostedFields = length sharedIndices ->
  min_element ghostedFields = Some smallest ->
  -1 < smallest ->
  (forall s, success s = true ->
     exists s', rank_branch myRank ghostedFields s = Done tt s' /\ success s' = true) ->
  validated myRank sharedIndices ghostedFields.
Proof.
  intros Hlen Hmin Hgt Hbranch. unfold validated, passes, GhostedFieldVector_checks.
  rewrite bind_unfold. unfold TEST_EQUALITY at 1, compared at 1.
  rewrite bind_unfold, Hmin. unfold deref at 1.
  rewrite bind_unfold. unfold TEST_COMPARE_gt at 1, compared at 1.
  rewrite bind_unfold, print_loop_done by lia.
  apply Hbranch. simpl. unfold size. rewrite Hlen, Z.eqb_refl. simpl.
  apply Z.gtb_lt. lia.
Qed.

Lemma expect_run (v : list Z) (i : nat) (expected : Z) (s : TestState) :
  expect v i expected s
  = match v !! i with
    | Some x => Done tt (mkTestState (success s && (x =? expected))
                                     (evaluated s ++ [(x, expected)]))
    | None => Undefined
    end.
Proof. unfold expect. rewrite bind_unfold. unfold at_. now destruct (v !! i). Qed.

(** A vector that is too short: some comparison reads past its end. *)
Ltac reads_past_end H :=
  repeat (rewrite bind_unfold, expect_run in H; simpl in H);
  rewrite ?expect_run in H; discriminate H.

(** Reading the conjunction of comparisons back as equalities. *)
Ltac read_comparisons H :=
  repeat (apply andb_true_iff in H; let E := fresh "E" in destruct H as [H E];
          apply Z.eqb_eq in E; subst).

Lemma rank0_accepts (v : list Z) (s s' : TestState) :
  GhostedFieldVector_rank0 v s = Done tt s' -> success s' = true ->
  exists rest, v = [0; 1; 0; 1; 0; 1; 0; 1; 0; 1; 0; 0; 0; 1] ++ rest.
Proof.
  unfold GhostedFieldVector_rank0. intros Hrun Hs'.
  do 14 (destruct v as [| ? v]; [reads_past_end Hrun |]).
  repeat (rewrite bind_unfold, expect_run in Hrun; simpl in Hrun).
  rewrite expect_run in Hrun. simpl in Hrun. injection Hrun as <-.
  simpl in Hs'. read_comparisons Hs'. exists v. reflexivity.
Qed.

Lemma rank1_accepts (v : list Z) (s s' : TestState) :
  GhostedFieldVector_rank1 v s = Done tt s' -> success s' = true ->
  exists rest, v = [0; 1; 0; 1; 0; 1; 0; 1; 0; 0; 0; 0] ++ rest.
Proof.
  unfold GhostedFieldVector_rank1. intros Hrun Hs'.
  do 12 (destruct v as [| ? v]; [reads_past_end Hrun |]).
  repeat (rewrite bind_unfold, expect_run in Hrun; simpl in Hrun).
  rewrite expect_run in Hrun. simpl in Hrun. injection Hrun as <-.
  simpl in Hs'. read_comparisons Hs'. exists v. reflexivity.
Qed.

Lemma rank_branch_accepts (myRank : Z) (v : list Z) (s s' : TestState) :
  rank_branch myRank v s = Done tt s' -> success s' = true ->
  (myRank = 0 \/ myRank = 1) /\ exists rest, v = expected_ghostedFields myRank ++ rest.
Proof.
  unfold rank_branch, expected_ghostedFields. intros Hrun Hs'.
  destruct (Z.eqb_spec myRank 0) as [-> | H0].
  - split; [now left |]. eapply rank0_accepts; eassumption.
  - destruct (Z.eqb_spec myRank 1) as [-> | H1].
    + split; [now right |]. eapply rank1_accepts; eassumption.
    + discriminate Hrun.
Qed.

Lemma rank_branch_passes (myRank : Z) (rest : list Z) (s : TestState) :
  myRank = 0 \/ myRank = 1 -> success s = true ->
  exists s', rank_branch myRank (expected_ghostedFields myRank ++ rest) s = Done tt s'
             /\ success s' = true.
Proof.
  intros [-> | ->] Hs; unfold rank_branch, expected_ghostedFields;
    cbn [Z.eqb Pos.eqb]; unfold GhostedFieldVector_rank0, GhostedFieldVector_rank1;
    repeat (rewrite bind_unfold, expect_run; simpl); rewrite expect_run; simpl;
    (eexists; split; [reflexivity |]); simpl; rewrite Hs; reflexivity.
Qed.

(** C4 (with the number of tests as the file has it). Each of the five
    unit tests requires exactly two processes: with any other count its
    [TEUCHOS_ASSERT(numProcs==2)] throws before anything is compared, and
    with two processes and rank 0 or 1 its final [TEUCHOS_ASSERT(false)]
    is not reached. *)
Theorem five_unit_tests_require_two_processes :
  length unit_tests = 5%nat /\
  Forall2 requires_two_processes (map snd unit_tests) assert_lines.
Proof.
  split; [reflexivity |].
  unfold unit_tests, assert_lines. cbn [map snd].
  apply List.Forall2_cons; [exact GhostedFieldVector_requires |].
  apply List.Forall2_cons; [exact updateGhostedDataVector_requires |].
  apply List.Forall2_cons; [exact ArrayToFieldVector_ghost_requires |].
  apply List.Forall2_cons; [exact ArrayToFieldVector_test_requires |].
  apply List.Forall2_cons; [exact ArrayToFieldVector_multicol_requires |].
  apply List.Forall2_nil.
Qed.

(** C4 as stated speaks of four unit tests; the file has five. *)
Lemma four_unit_tests_counterexample :
  ~ (length unit_tests = 4%nat /\
     Forall2 requires_two_processes (map snd unit_tests) assert_lines).
Proof. intros [Hcount _]. discriminate Hcount. Qed.

End GhostedFieldVectorTables.

(** ** zoltan2: [solve] and [createMappingProblem] *)
Section MappingProblemFacts.
Import Zoltan2.
Context {Comm Solution Mapper PartSoln Machine : Type}.
Variable srv : Services Comm Solution Mapper Machine.
Variable defString : string.
Implicit Types (w : World Comm Solution PartSoln Machine)
  (p : MappingProblem Comm Solution PartSoln Machine) (e : exception).

Lemma try_forward {A} (body : M Comm Solution PartSoln Machine A) w :
  try_catch body Z2_FORWARD_EXCEPTIONS w = body w.
Proof. unfold try_catch, Z2_FORWARD_EXCEPTIONS, throw. now destruct (body w) as [[e | a] w']. Qed.

(** The run of [solve], case by case. *)
Lemma solve_run (newData : bool) w :
  solve srv defString newData w =
  let log1 := calls w ++ [created_MappingSolution] in
  match new_MappingSolution srv with
  | inl e => (inl e, mkWorld (this w) log1)
  | inr s0 =>
      let p1 := put_soln (this w) (Some s0) in
      match algName_of defString (this w) with
      | inl e => (inl e, mkWorld p1 log1)
      | inr algName =>
          if String.eqb algName "geometric" then
            let log2 := log1 ++ [created_CoordinateTaskMapper] in
            match new_CoordinateTaskMapper srv (comm_ (this w)) with
            | inl e => (inl e, mkWorld p1 log2)
            | inr alg =>
                match CoordinateTaskMapper_map srv alg s0 with
                | inl e =>
                    (inl e,
                     mkWorld (put_soln p1 (Some (CoordinateTaskMapper_map_throwing srv alg s0)))
                             (log2 ++ [invoked_map]))
                | inr s1 =>
                    (inr tt, mkWorld (put_soln p1 (Some s1)) (log2 ++ [invoked_map]))
                end
            end
          else (inr tt, mkWorld p1 log1)
      end
  end.
Proof.
  destruct w as [p log].
  unfold solve, algName_of, try_catch, Z2_FORWARD_EXCEPTIONS, throw, map_into_soln,
    map_in_place,
    mbind, mret, M_bind, M_ret, bind, ret, service, set_soln, get_this, lift.
  destruct (new_MappingSolution srv) as [e | s0];
    cbn [this calls pl put_soln comm_ soln]; [reflexivity |].
  destruct (pl p !! "mapping_algorithm"%string) as [[value | type_name] |];
    cbn [getValue_string this calls pl put_soln comm_ soln]; try reflexivity.
  - destruct (String.eqb value "geometric"); [| reflexivity].
    destruct (new_CoordinateTaskMapper srv (comm_ p)) as [e | alg];
      cbn [this calls pl put_soln comm_ soln]; [reflexivity |].
    destruct (CoordinateTaskMapper_map srv alg s0); reflexivity.
  - destruct (String.eqb defString "geometric"); [| reflexivity].
    destruct (new_CoordinateTaskMapper srv (comm_ p)) as [e | alg];
      cbn [this calls pl put_soln comm_ soln]; [reflexivity |].
    destruct (CoordinateTaskMapper_map srv alg s0); reflexivity.
Qed.

Lemma createMappingProblem_run (partSoln_ : option PartSoln) w :
  createMappingProblem srv partSoln_ None w =
  let p1 := match partSoln_ with
            | Some ps => put_partSoln (this w) (Some ps)
            | None => this w
            end in
  let log1 := calls w ++ [created_MachineRepresentation] in
  match new_MachineRepresentation srv (comm_ (this w)) with
  | inl e => (inl e, mkWorld p1 log1)
  | inr m => (inr tt, mkWorld (put_machine p1 (Some m)) log1)
  end.
Proof.
  destruct w as [p log].
  unfold createMappingProblem, try_catch, Z2_FORWARD_EXCEPTIONS, throw,
    mbind, mret, M_bind, M_ret, bind, ret, service, set_partSoln, set_machine, get_this.
  destruct partSoln_ as [ps |]; cbn [this calls comm_ put_partSoln];
    destruct (new_MachineRepresentation srv (comm_ p)); reflexivity.
Qed.

Lemma createMappingProblem_given (partSoln_ : option PartSoln) (m : Machine) w :
  createMappingProblem srv partSoln_ (Some m) w =
  (inr tt,
   mkWorld (put_machine (match partSoln_ with
                         | Some ps => put_partSoln (this w) (Some ps)
                         | None => this w
                         end) (Some m)) (calls w)).
Proof. destruct w as [p log]. now destruct partSoln_. Qed.




(** C6. Each of the three [try] blocks of the class is followed by
    [Z2_FORWARD_EXCEPTIONS]: such a block behaves as its body, so what the
    creation of the solution, the construction or the run of the
    algorithm, or the creation of the machine throws is thrown on to the
    caller of [solve] or [createMappingProblem]; and when these return
    normally nothing was thrown, so no exception is swallowed. *)
Theorem exceptions_are_forwarded :
  (forall A (body : M Comm Solution PartSoln Machine A) w,
     try_catch body Z2_FORWARD_EXCEPTIONS w = body w) /\
  (forall newData w e,
     new_MappingSolution srv = inl e ->
     (solve srv defString newData w).1 = inl e) /\
  (forall newData w s0 e,
     new_MappingSolution srv = inr s0 ->
     algName_of defString (this w) = inr "geometric"%string ->
     new_CoordinateTaskMapper srv (comm_ (this w)) = inl e ->
     (solve srv defString newData w).1 = inl e) /\
  (forall newData w s0 alg e,
     new_MappingSolution srv = inr s0 ->
     algName_of defString (this w) = inr "geometric"%string ->
     new_CoordinateTaskMapper srv (comm_ (this w)) = inr alg ->
     CoordinateTaskMapper_map srv alg s0 = inl e ->
     (solve srv defString newData w).1 = inl e) /\
  (forall partSoln_ w e,
     new_MachineRepresentation srv (comm_ (this w)) = inl e ->
     (createMappingProblem srv partSoln_ None w).1 = inl e) /\
  (forall newData w,
     (solve srv defString newData w).1 = inr tt ->
     exists s0 algName,
       new_MappingSolution srv = inr s0 /\
       algName_of defString (this w) = inr algName /\
       (algName = "geometric"%string ->
        exists alg s1,
          new_CoordinateTaskMapper srv (comm_ (this w)) = inr alg /\
          CoordinateTaskMapper_map srv alg s0 = inr s1)) /\
  (forall partSoln_ w,
     (createMappingProblem srv partSoln_ None w).1 = inr tt ->
     exists m, new_MachineRepresentation srv (comm_ (this w)) = inr m).
Proof.
  split; [intros A body w; apply try_forward |].
  split; [intros newData w e H; rewrite solve_run; cbv zeta; now rewrite H |].
  split; [intros newData w s0 e H1 H2 H3; rewrite solve_run; cbv zeta;
          now rewrite H1, H2, H3 |].
  split; [intros newData w s0 alg e H1 H2 H3 H4; rewrite solve_run; cbv zeta;
          now rewrite H1, H2, H3, H4 |].
  split; [intros partSoln_ w e H; rewrite createMappingProblem_run; cbv zeta;
          now rewrite H |].
  split.
  - intros newData w. rewrite solve_run. cbv zeta.
    destruct (new_MappingSolution srv) as [e | s0]; [discriminate |].
    destruct (algName_of defString (this w)) as [e | algName]; [discriminate |].
    intros H. exists s0, algName. split; [reflexivity |]. split; [reflexivity |].
    intros ->. cbn in H.
    destruct (new_CoordinateTaskMapper srv (comm_ (this w))) as [e | alg]; [discriminate |].
    destruct (CoordinateTaskMapper_map srv alg s0) as [e | s1] eqn:Hmap; [discriminate |].
    exists alg, s1. split; [reflexivity | exact Hmap].
  - intros partSoln_ w. rewrite createMappingProblem_run. cbv zeta.
    destruct (new_MachineRepresentation srv (comm_ (this w))) as [e | m]; [discriminate |].
    eauto.
Qed.

End MappingProblemFacts.

(** ** zoltan2: the definitions at work *)
Section MappingProblemExamples.
Import Zoltan2.

Example solve_geometric :
  solve sample_services "default" true
    (mkWorld (sample_problem {[ "mapping_algorithm"%string := entry_string "geometric" ]}) [])
  = (inr tt,
     mkWorld (put_soln (sample_problem
                          {[ "mapping_algorithm"%string := entry_string "geometric" ]})
                       (Some 1%nat))
             [created_MappingSolution; created_CoordinateTaskMapper; invoked_map]).
Proof. vm_compute. reflexivity. Qed.

Example solve_other_name :
  solve sample_services "default" true
    (mkWorld (sample_problem {[ "mapping_algorithm"%string := entry_string "rcb" ]}) [])
  = (inr tt,
     mkWorld (put_soln (sample_problem {[ "mapping_algorithm"%string := entry_string "rcb" ]})
                       (Some 0%nat))
             [created_MappingSolution]).
Proof. vm_compute. reflexivity. Qed.

Example solve_not_a_string :
  (solve sample_services "default" true
     (mkWorld (sample_problem {[ "mapping_algorithm"%string := entry_other "int" ]}) [])).1
  = inl bad_any_cast.
Proof. vm_compute. reflexivity. Qed.

(** Were the default name ["geometric"], the algorithm would run without
    the parameter. *)
Example solve_default_geometric :
  (solve sample_services "geometric" true (mkWorld (sample_problem ∅) [])).2
  = mkWorld (put_soln (sample_problem ∅) (Some 1%nat))
            [created_MappingSolution; created_CoordinateTaskMapper; invoked_map].
Proof. vm_compute. reflexivity. Qed.


End MappingProblemExamples.

(** ** tpetra: the active-matrix flag and the assignment *)
Section FECrsMatrixFacts.
Import Tpetra.
Context {FEWhichActive : Type} `{EqDecision FEWhichActive} {CrsMatrix : Type}.
Variables FE_ACTIVE_OVERLAP FE_ACTIVE_LOCAL : FEWhichActive.
Implicit Types (mem : Memory FEWhichActive CrsMatrix) (m : FECrsMatrix CrsMatrix)
  (this rhs cell : positive) (flag : FEWhichActive).

Lemma active_flag_lookup this mem m cell :
  matrices mem !! this = Some m -> activeCrsMatrix_ m = Some cell ->
  active_flag this mem = flags mem !! cell.
Proof. intros Hm Hcell. unfold active_flag. rewrite Hm. simpl. now rewrite Hcell. Qed.

Lemma switchActiveCrsMatrix_run this mem m cell flag :
  matrices mem !! this = Some m -> activeCrsMatrix_ m = Some cell ->
  flags mem !! cell = Some flag ->
  switchActiveCrsMatrix FE_ACTIVE_OVERLAP FE_ACTIVE_LOCAL this mem
  = Some (mkMemory (matrices mem)
                   (<[cell := toggled FE_ACTIVE_OVERLAP FE_ACTIVE_LOCAL flag]> (flags mem))).
Proof.
  intros Hm Hcell Hflag. unfold switchActiveCrsMatrix, Tpetra.toggled.
  rewrite (active_flag_lookup this mem m cell Hm Hcell), Hflag. simpl.
  unfold set_active_flag. rewrite Hm. simpl. rewrite Hcell. simpl. rewrite Hflag. simpl.
  destruct (decide (flag = FE_ACTIVE_OVERLAP)); simpl; rewrite Hm; simpl;
    now destruct (is_null (inactiveCrsMatrix_ m)).
Qed.

Lemma toggled_twice flag :
  FE_ACTIVE_OVERLAP <> FE_ACTIVE_LOCAL ->
  flag = FE_ACTIVE_OVERLAP \/ flag = FE_ACTIVE_LOCAL ->
  toggled FE_ACTIVE_OVERLAP FE_ACTIVE_LOCAL
    (toggled FE_ACTIVE_OVERLAP FE_ACTIVE_LOCAL flag) = flag.
Proof.
  intros Hdistinct [-> | ->]; unfold Tpetra.toggled; repeat case_decide; congruence.
Qed.

(** C9. On a matrix whose flag exists, one call of [switchActiveCrsMatrix]
    turns [FE_ACTIVE_OVERLAP] into [FE_ACTIVE_LOCAL] and any other value
    into [FE_ACTIVE_OVERLAP]; the flag is all it changes; and from either
    of the two values a second call restores the first state. *)
Theorem switchActiveCrsMatrix_toggles this mem m cell flag :
  FE_ACTIVE_OVERLAP <> FE_ACTIVE_LOCAL ->
  matrices mem !! this = Some m -> activeCrsMatrix_ m = Some cell ->
  flags mem !! cell = Some flag ->
  exists mem',
    switchActiveCrsMatrix FE_ACTIVE_OVERLAP FE_ACTIVE_LOCAL this mem = Some mem' /\
    (flag = FE_ACTIVE_OVERLAP -> active_flag this mem' = Some FE_ACTIVE_LOCAL) /\
    (flag <> FE_ACTIVE_OVERLAP -> active_flag this mem' = Some FE_ACTIVE_OVERLAP) /\
    matrices mem' = matrices mem /\
    (forall other, other <> cell -> flags mem' !! other = flags mem !! other) /\
    (flag = FE_ACTIVE_OVERLAP \/ flag = FE_ACTIVE_LOCAL ->
     switchActiveCrsMatrix FE_ACTIVE_OVERLAP FE_ACTIVE_LOCAL this mem' = Some mem).
Proof.
  intros Hdistinct Hm Hcell Hflag.
  eexists. split; [apply (switchActiveCrsMatrix_run this mem m cell flag Hm Hcell Hflag) |].
  assert (Hread : active_flag this
                    (mkMemory (matrices mem)
                       (<[cell := toggled FE_ACTIVE_OVERLAP FE_ACTIVE_LOCAL flag]>
                          (flags mem)))
                  = Some (toggled FE_ACTIVE_OVERLAP FE_ACTIVE_LOCAL flag)).
  { rewrite (active_flag_lookup this (mkMemory (matrices mem) _) m cell Hm Hcell).
    simpl. apply lookup_insert_eq. }
  split; [| split; [| split; [| split]]].
  - intros ->. rewrite Hread. unfold Tpetra.toggled. now rewrite decide_True.
  - intros Hne. rewrite Hread. unfold Tpetra.toggled. now rewrite decide_False.
  - reflexivity.
  - intros other Hother. simpl. now apply lookup_insert_ne.
  - intros Hvalue.
    rewrite (switchActiveCrsMatrix_run this (mkMemory (matrices mem) _) m cell
               (toggled FE_ACTIVE_OVERLAP FE_ACTIVE_LOCAL flag) Hm Hcell)
      by (simpl; apply lookup_insert_eq).
    simpl. rewrite insert_insert_eq, (toggled_twice flag Hdistinct Hvalue).
    rewrite (insert_id (flags mem) cell flag Hflag). now destruct mem.
Qed.

(** C10. [operator=] returns the reference to its target and leaves the
    store as it was: every field of the target (and of every other object)
    keeps its value, and the result does not depend on the right-hand side. *)
Theorem operator_assign_is_identity this rhs mem :
  (operator_assign this rhs mem).1 = this /\
  (operator_assign this rhs mem).2 = mem /\
  matrices (operator_assign this rhs mem).2 !! this = matrices mem !! this /\
  active_flag this (operator_assign this rhs mem).2 = active_flag this mem /\
  (forall rhs', operator_assign this rhs' mem = operator_assign this rhs mem).
Proof.
  unfold operator_assign. simpl. repeat split.
Qed.

End FECrsMatrixFacts.

Section FECrsMatrixExamples.
Import Tpetra.

Example switch_from_overlap :
  switchActiveCrsMatrix 0 1 1%positive (sample_memory 0) = Some (sample_memory 1).
Proof. vm_compute. reflexivity. Qed.

Example switch_from_local :
  switchActiveCrsMatrix 0 1 1%positive (sample_memory 1) = Some (sample_memory 0).
Proof. vm_compute. reflexivity. Qed.

(** A value that is neither enumerator becomes [FE_ACTIVE_OVERLAP] and
    does not come back. *)
Example switch_from_other :
  switchActiveCrsMatrix 0 1 1%positive (sample_memory 7) = Some (sample_memory 0).
Proof. vm_compute. reflexivity. Qed.

Example switch_without_flag :
  switchActiveCrsMatrix 0 1 1%positive
    (mkMemory {[ 1%positive := mkFECrsMatrix tt None None ]} (∅ : gmap positive Z)) = None.
Proof. vm_compute. reflexivity. Qed.

(** The sample store with the flag at [FE_ACTIVE_OVERLAP]. *)
Lemma switchActiveCrsMatrix_toggles_witness :
  exists mem',
    switchActiveCrsMatrix 0 1 1%positive (sample_memory 0) = Some mem' /\
    (0 = 0 -> active_flag 1%positive mem' = Some 1) /\
    (0 <> 0 -> active_flag 1%positive mem' = Some 0) /\
    matrices mem' = matrices (sample_memory 0) /\
    (forall other, other <> 1%positive ->
                   flags mem' !! other = flags (sample_memory 0) !! other) /\
    (0 = 0 \/ 0 = 1 -> switchActiveCrsMatrix 0 1 1%positive mem' = Some (sample_memory 0)).
Proof.
  apply (switchActiveCrsMatrix_toggles 0 1 1%positive (sample_memory 0)
           (mkFECrsMatrix tt (Some 1%positive) None) 1%positive 0);
    [discriminate | reflexivity | reflexivity | reflexivity].
Defined.

End FECrsMatrixExamples.

(** ** rol: which member functions hand their work to [Impl] *)
Section ObjectiveFacts.
Import XROL.
Context {T : Types}.
Implicit Types (impl : forall Y, ImplCall Y -> Y).

Lemma delegate_calls_once {X} (c : ImplCall X) impl :
  Impl_calls impl (delegate c) = 1%nat /\ run impl (delegate c) = impl X c.
Proof. split; reflexivity. Qed.

Lemma pure_delegation_calls_once {R} (b : Body R) impl :
  pure_delegation b -> Impl_calls impl b = 1%nat.
Proof. intros [c ->]. apply delegate_calls_once. Qed.

Lemma no_delegation_calls_none {R} (b : Body R) impl :
  no_delegation b -> Impl_calls impl b = 0%nat.
Proof. intros [r ->]. reflexivity. Qed.

Lemma no_delegation_not_pure {R} (b : Body R) :
  no_delegation b -> ~ pure_delegation b.
Proof. intros [r ->] [c Hc]. discriminate Hc. Qed.

(** C2 (amended). Of the virtual member functions with a body,
    [gradient], [dirDeriv] and [hessVec] are one call on [pObjImpl_] whose
    answer they return; [update], [access], [invHessVec] and [precond]
    return without a call on [pObjImpl_] and leave their arguments as
    they were; [setParameters] stores its argument; and a derived class
    that overrides nothing supplies exactly [value]. *)
Theorem Objective_default_bodies :
  (forall self g x tol, pure_delegation (gradient self g x tol)) /\
  (forall self x d tol, pure_delegation (dirDeriv self x d tol)) /\
  (forall self hv v x tol, pure_delegation (hessVec self hv v x tol)) /\
  (forall x, no_delegation (update x) /\ update x = Return tt) /\
  (forall objEI, no_delegation (access objEI) /\ access objEI = Return tt) /\
  (forall hv v x tol,
     no_delegation (invHessVec hv v x tol) /\ invHessVec hv v x tol = Return (hv, tol)) /\
  (forall Pv v x tol,
     no_delegation (precond Pv v x tol) /\ precond Pv v x tol = Return (Pv, tol)) /\
  (forall param o, setParameters param o = Return (mkObjectiveData param)) /\
  (forall value value',
     v_value (derived value) = value /\
     derived value'
     = mkObjective
         (v_setParameters (derived value)) (v_access (derived value))
         (v_update (derived value)) value' (v_gradient (derived value))
         (v_dirDeriv (derived value)) (v_hessVec (derived value))
         (v_invHessVec (derived value)) (v_precond (derived value))).
Proof.
  split; [intros; eexists; reflexivity |].
  split; [intros; eexists; reflexivity |].
  split; [intros; eexists; reflexivity |].
  split; [intros; split; [eexists |]; reflexivity |].
  split; [intros; split; [eexists |]; reflexivity |].
  split; [intros; split; [eexists |]; reflexivity |].
  split; [intros; split; [eexists |]; reflexivity |].
  split; [reflexivity |].
  intros value value'. split; reflexivity.
Qed.

End ObjectiveFacts.

Section ObjectiveCounterexample.
Import XROL.
Existing Instance unit_Types.

Example gradient_calls_Impl :
  Impl_calls unit_Impl (gradient tt tt tt tt) = 1%nat.
Proof. reflexivity. Qed.

(** C2 as stated has [update] (and [access], [invHessVec], [precond])
    delegate to [pObjImpl_]; they make no call on it. *)
Lemma update_delegates_counterexample :
  ~ @all_seven_delegate unit_Types /\
  Impl_calls unit_Impl (update tt) = 0%nat /\
  Impl_calls unit_Impl (access tt) = 0%nat /\
  Impl_calls unit_Impl (invHessVec tt tt tt tt) = 0%nat /\
  Impl_calls unit_Impl (precond tt tt tt tt) = 0%nat.
Proof.
  split; [| repeat split].
  intros [Hupdate _].
  apply (no_delegation_not_pure (@update unit_Types tt)); [| apply Hupdate].
  exists tt. reflexivity.
Qed.

End ObjectiveCounterexample.

(** ** zoltan: the object counts of the log *)
Section LogFacts.
Import ZoltanLog.

Lemma counts_before_read :
  counts_before = [mkStats 76 76 380; mkStats 76 76 380; mkStats 76 76 380; mkStats 76 76 380].
Proof. vm_compute. reflexivity. Qed.

Lemma counts_after_read :
  counts_after = [mkStats 0 285 380; mkStats 95 95 380; mkStats 95 95 380; mkStats 95 95 380].
Proof. vm_compute. reflexivity. Qed.

Example fields_of_row :
  fields "Zoltan_LB_Eval_HG  Number of objects :        95       95      380   1.000"
  = ["Zoltan_LB_Eval_HG"; "Number"; "of"; "objects"; ":"; "95"; "95"; "380"; "1.000"]%string.
Proof. reflexivity. Qed.

Example weight_row_is_no_count :
  table_row "Zoltan_LB_Eval_HG  Object weight     :        95       95      380   1.000" = None.
Proof. reflexivity. Qed.

(** C8. Every object-count row of the log, before and after the
    partitioning, has Sum 380 and Min <= Max <= Sum; there are such rows on
    both sides. *)
Theorem object_counts_conserved :
  counts_before <> [] /\ counts_after <> [] /\
  Forall (fun r => Sum r = 380 /\ Min r <= Max r <= Sum r) counts_before /\
  Forall (fun r => Sum r = 380 /\ Min r <= Max r <= Sum r) counts_after.
Proof.
  rewrite counts_before_read, counts_after_read.
  split; [discriminate |]. split; [discriminate |].
  split; repeat (apply List.Forall_cons; [simpl; lia |]); apply List.Forall_nil.
Qed.

End LogFacts.

(* --------------------------------------------------------------------- *)
(** ** Further properties of the code *)
(* --------------------------------------------------------------------- *)

(** ** zoltan2: more on [solve], [createMappingProblem] and the constructors *)
Section MappingProblemMore.
Import Zoltan2.
Context {Comm Solution Mapper PartSoln Machine : Type}.
Variable srv : Services Comm Solution Mapper Machine.
Variable defString : string.
Implicit Types (w : World Comm Solution PartSoln Machine)
  (p : MappingProblem Comm Solution PartSoln Machine) (e : exception).

(** Every run of [solve] is one of the six of [solve_run]. *)
Ltac solve_cases w :=
  rewrite !(solve_run srv defString _ w); cbv zeta;
  destruct (new_MappingSolution srv) as [? | ?];
  [ | destruct (algName_of defString (this w)) as [? | ?];
      [ | destruct (String.eqb _ "geometric");
          [ destruct (new_CoordinateTaskMapper srv (comm_ (this w))) as [? | ?];
            [ | destruct (CoordinateTaskMapper_map srv _ _) as [? | ?] ] | ] ] ].

(** An event that is none of the listed ones. *)
Ltac not_listed :=
  rewrite ?not_elem_of_cons; repeat split; try discriminate; apply not_elem_of_nil.

(** X1. Whatever happens in [solve], normal return or exception, the
    communicator, the parameter list, the partitioning solution and the
    machine of the problem stay as they were; the call creates exactly one
    [MappingSolution], first, makes at most two more calls and never
    creates a machine. *)
Theorem solve_changes_only_soln (newData : bool) w :
  let w' := (solve srv defString newData w).2 in
  comm_ (this w') = comm_ (this w) /\
  pl (this w') = pl (this w) /\
  partSoln (this w') = partSoln (this w) /\
  machine (this w') = machine (this w) /\
  exists more,
    calls w' = calls w ++ created_MappingSolution :: more /\
    (length more <= 2)%nat /\
    (created_MappingSolution ∉ more) /\ (created_MachineRepresentation ∉ more).
Proof.
  cbv zeta. solve_cases w; cbn [snd this calls put_soln comm_ pl partSoln machine];
    (repeat split; try reflexivity);
    [ exists [] | exists [] | exists [created_CoordinateTaskMapper]
    | exists [created_CoordinateTaskMapper; invoked_map]
    | exists [created_CoordinateTaskMapper; invoked_map] | exists [] ];
    rewrite <- ?app_assoc; (split; [reflexivity |]); cbn [length];
    (split; [lia |]); split; not_listed.
Qed.

(** X2. Which solution the problem holds after [solve]: when the creation
    of the new solution throws, the problem is exactly as before (the
    previous solution is kept); when the read of the parameter or the
    construction of the algorithm throws, the previous solution is gone
    and the problem holds the new one as it was created; when [map]
    throws, the problem holds the new one as [map] left it; on a normal
    return it holds the new solution, filled by [map] if the name was
    ["geometric"]. *)
Theorem solve_solution_afterwards (newData : bool) w :
  let r := (solve srv defString newData w).1 in
  let w' := (solve srv defString newData w).2 in
  (forall e, new_MappingSolution srv = inl e -> r = inl e /\ this w' = this w) /\
  (forall s0 e,
     new_MappingSolution srv = inr s0 -> r = inl e ->
     ((algName_of defString (this w) = inl e \/
       (algName_of defString (this w) = inr "geometric"%string /\
        new_CoordinateTaskMapper srv (comm_ (this w)) = inl e)) /\
      getSolution (this w') = Some s0) \/
     (algName_of defString (this w) = inr "geometric"%string /\
      exists alg,
        new_CoordinateTaskMapper srv (comm_ (this w)) = inr alg /\
        CoordinateTaskMapper_map srv alg s0 = inl e /\
        getSolution (this w') = Some (CoordinateTaskMapper_map_throwing srv alg s0))) /\
  (forall s0,
     new_MappingSolution srv = inr s0 -> r = inr tt ->
     (algName_of defString (this w) <> inr "geometric"%string /\
      getSolution (this w') = Some s0) \/
     (algName_of defString (this w) = inr "geometric"%string /\
      exists alg s1,
        new_CoordinateTaskMapper srv (comm_ (this w)) = inr alg /\
        CoordinateTaskMapper_map srv alg s0 = inr s1 /\
        getSolution (this w') = Some s1)).
Proof.
  cbv zeta. rewrite !(solve_run srv defString newData w). cbv zeta.
  split; [intros e ->; split; reflexivity |]. split.
  - intros s0 e -> H. destruct (algName_of defString (this w)) as [e' | algName].
    + left. cbn in H. injection H as ->. split; [now left | reflexivity].
    + destruct (String.eqb algName "geometric") eqn:Hname; [| discriminate H].
      apply String.eqb_eq in Hname. subst algName.
      destruct (new_CoordinateTaskMapper srv (comm_ (this w))) as [e' | alg].
      * left. cbn in H. injection H as ->. split; [right; now split | reflexivity].
      * destruct (CoordinateTaskMapper_map srv alg s0) as [e' | s1] eqn:Hmap;
          [| discriminate H].
        right. cbn in H. injection H as ->. split; [reflexivity |].
        exists alg. split; [reflexivity |]. split; [exact Hmap | reflexivity].
  - intros s0 -> H. destruct (algName_of defString (this w)) as [e' | algName];
      [discriminate H |].
    destruct (String.eqb algName "geometric") eqn:Hname.
    + right. apply String.eqb_eq in Hname. subst algName. split; [reflexivity |].
      destruct (new_CoordinateTaskMapper srv (comm_ (this w))) as [e' | alg];
        [discriminate H |].
      destruct (CoordinateTaskMapper_map srv alg s0) as [e' | s1] eqn:Hmap;
        [discriminate H |].
      exists alg, s1. repeat split; [exact Hmap].
    + left. split; [| reflexivity]. intros [= ->]. discriminate Hname.
Qed.

(** X3. A parameter ["mapping_algorithm"] that holds no string makes
    [solve] throw [bad_any_cast] (the read on line 183 is outside the [try]
    blocks): by then the new solution has replaced the previous one, and
    no algorithm is built or run. *)
Theorem solve_parameter_not_a_string (newData : bool) w (s0 : Solution)
    (type_name : string) :
  new_MappingSolution srv = inr s0 ->
  pl (this w) !! "mapping_algorithm"%string = Some (entry_other type_name) ->
  solve srv defString newData w
  = (inl bad_any_cast,
     mkWorld (put_soln (this w) (Some s0)) (calls w ++ [created_MappingSolution])).
Proof.
  intros Hnew Hentry. rewrite solve_run. cbv zeta. rewrite Hnew.
  unfold algName_of. now rewrite Hentry.
Qed.

(** X4. [solve] does not look at the solution the problem holds nor at its
    argument: solving again, with either value of the flag, returns the
    same result and leaves the same problem as the first call did. *)
Theorem solve_again (newData newData' : bool) w :
  let first := solve srv defString newData w in
  let second := solve srv defString newData' first.2 in
  second.1 = first.1 /\ this second.2 = this first.2.
Proof.
  cbv zeta. rewrite (solve_run srv defString newData').
  rewrite (solve_run srv defString newData w). cbv zeta.
  destruct (new_MappingSolution srv) as [e | s0]; [split; reflexivity |].
  unfold algName_of.
  destruct (pl (this w) !! "mapping_algorithm"%string) as [entry |] eqn:Hpl;
    [destruct (getValue_string entry) as [e | algName] eqn:Hentry |].
  - cbn [snd this pl put_soln]. rewrite Hpl, Hentry. split; reflexivity.
  - destruct (String.eqb algName "geometric") eqn:Hname.
    + destruct (new_CoordinateTaskMapper srv (comm_ (this w))) as [e | alg] eqn:Halg.
      * cbn [snd this pl put_soln comm_]. rewrite Hpl, Hentry, Hname, Halg.
        split; reflexivity.
      * destruct (CoordinateTaskMapper_map srv alg s0) as [e | s1] eqn:Hmap;
          cbn [snd this pl put_soln comm_]; rewrite Hpl, Hentry, Hname, Halg, Hmap;
          split; reflexivity.
    + cbn [snd this pl put_soln]. rewrite Hpl, Hentry, Hname. split; reflexivity.
  - destruct (String.eqb defString "geometric") eqn:Hname.
    + destruct (new_CoordinateTaskMapper srv (comm_ (this w))) as [e | alg] eqn:Halg.
      * cbn [snd this pl put_soln comm_]. rewrite Hpl, Hname, Halg. split; reflexivity.
      * destruct (CoordinateTaskMapper_map srv alg s0) as [e | s1] eqn:Hmap;
          cbn [snd this pl put_soln comm_]; rewrite Hpl, Hname, Halg, Hmap;
          split; reflexivity.
    + cbn [snd this pl put_soln]. rewrite Hpl, Hname. split; reflexivity.
Qed.

End MappingProblemMore.

Section MappingProblemConstruction.
Import Zoltan2.
Context {Comm Solution Mapper PartSoln Machine : Type}.
Variable srv : Services Comm Solution Mapper Machine.
Variable defString : string.
Implicit Types (w : World Comm Solution PartSoln Machine)
  (p : MappingProblem Comm Solution PartSoln Machine) (e : exception).

(** X5. [createMappingProblem] never touches the solution, the
    communicator or the parameter list.  It replaces the partitioning
    solution only when it is given one, also when it throws afterwards.
    With a machine given it calls nothing and cannot throw; without one it
    creates exactly one machine, and when that throws the exception is the
    result and the machine the problem held stays. *)
Theorem createMappingProblem_effect (partSoln_ : option PartSoln)
    (machine_ : option Machine) w :
  let r := (createMappingProblem srv partSoln_ machine_ w).1 in
  let w' := (createMappingProblem srv partSoln_ machine_ w).2 in
  soln (this w') = soln (this w) /\
  comm_ (this w') = comm_ (this w) /\
  pl (this w') = pl (this w) /\
  partSoln (this w') = match partSoln_ with
                       | Some ps => Some ps
                       | None => partSoln (this w)
                       end /\
  match machine_ with
  | Some m => r = inr tt /\ machine (this w') = Some m /\ calls w' = calls w
  | None =>
      calls w' = calls w ++ [created_MachineRepresentation] /\
      match new_MachineRepresentation srv (comm_ (this w)) with
      | inl e => r = inl e /\ machine (this w') = machine (this w)
      | inr m => r = inr tt /\ machine (this w') = Some m
      end
  end.
Proof.
  cbv zeta. destruct machine_ as [m |].
  - rewrite !createMappingProblem_given. destruct partSoln_; repeat split.
  - rewrite !createMappingProblem_run. cbv zeta.
    destruct (new_MachineRepresentation srv (comm_ (this w))); destruct partSoln_;
      repeat split.
Qed.

(** X6. A constructor fails exactly when the initialiser of the base
    class throws, or when that returns, no machine was passed and the
    creation of one throws; it fails with that exception, and when the
    base class throws nothing else is called.  When the constructor
    returns, the problem holds the parameter list, the communicator and
    the partitioning solution it was given, a machine, and no solution yet
    ([getSolution] is null until [solve] runs). *)
Theorem MappingProblem_new_result (p_ : gmap string ParameterEntry) (comm : Comm)
    (partSoln_ : option PartSoln) (machine_ : option Machine) :
  let r := (MappingProblem_new srv p_ comm partSoln_ machine_).1 in
  let w := (MappingProblem_new srv p_ comm partSoln_ machine_).2 in
  (forall e,
     r = inl e <->
     new_Problem srv p_ comm = inl e \/
     (new_Problem srv p_ comm = inr tt /\ machine_ = None /\
      new_MachineRepresentation srv comm = inl e)) /\
  (forall e, new_Problem srv p_ comm = inl e -> calls w = []) /\
  (r = inr tt ->
   getSolution (this w) = None /\ pl (this w) = p_ /\ comm_ (this w) = comm /\
   partSoln (this w) = partSoln_ /\ is_Some (machine (this w))).
Proof.
  cbv zeta. unfold MappingProblem_new. cbv zeta.
  destruct (new_Problem srv p_ comm) as [e0 | []].
  - split_and!.
    + intros e. split; [intros [= ->]; now left |].
      intros [[= ->] | [H _]]; [reflexivity | discriminate H].
    + reflexivity.
    + discriminate.
  - destruct machine_ as [m |].
    + rewrite !createMappingProblem_given. split_and!.
      * intros e. split; [discriminate |].
        intros [H | (_ & H & _)]; discriminate H.
      * discriminate.
      * intros _. destruct partSoln_; cbn; split_and!; try reflexivity; eauto.
    + rewrite !createMappingProblem_run. cbv zeta. cbn [this calls comm_].
      destruct (new_MachineRepresentation srv comm) as [e0 | m]; split_and!.
      * intros e. split; [intros [= ->]; right; now split_and! |].
        intros [H | (_ & _ & [= ->])]; [discriminate H | reflexivity].
      * discriminate.
      * discriminate.
      * intros e. split; [discriminate |].
        intros [H | (_ & _ & H)]; discriminate H.
      * discriminate.
      * intros _. destruct partSoln_; cbn; split_and!; try reflexivity; eauto.
Qed.

(** X7. A problem that was constructed and then solved, both without an
    exception, has a solution and still has the machine, the partitioning
    solution and the parameter list the constructor set. *)
Theorem solve_after_construction (p_ : gmap string ParameterEntry) (comm : Comm)
    (partSoln_ : option PartSoln) (machine_ : option Machine) (newData : bool) :
  let built := MappingProblem_new srv p_ comm partSoln_ machine_ in
  let solved := solve srv defString newData built.2 in
  built.1 = inr tt -> solved.1 = inr tt ->
  is_Some (getSolution (this solved.2)) /\
  is_Some (machine (this solved.2)) /\
  partSoln (this solved.2) = partSoln_ /\
  pl (this solved.2) = p_.
Proof.
  cbv zeta. intros Hbuilt. rewrite solve_run. cbv zeta.
  assert (Hp : is_Some (machine (this (MappingProblem_new srv p_ comm partSoln_ machine_).2))
               /\ partSoln (this (MappingProblem_new srv p_ comm partSoln_ machine_).2)
                  = partSoln_
               /\ pl (this (MappingProblem_new srv p_ comm partSoln_ machine_).2) = p_).
  { revert Hbuilt. unfold MappingProblem_new. cbv zeta.
    destruct (new_Problem srv p_ comm) as [e0 | []]; [discriminate |].
    destruct machine_ as [m |].
    - rewrite !createMappingProblem_given. destruct partSoln_; repeat split; eauto.
    - rewrite !createMappingProblem_run. cbv zeta. cbn [this comm_ calls].
      destruct (new_MachineRepresentation srv comm); [discriminate |].
      destruct partSoln_; repeat split; eauto. }
  destruct Hp as (Hmachine & Hpart & Hpl).
  set (w := (MappingProblem_new srv p_ comm partSoln_ machine_).2) in *.
  destruct (new_MappingSolution srv) as [e | s0]; [discriminate |].
  destruct (algName_of defString (this w)) as [e | algName]; [discriminate |].
  destruct (String.eqb algName "geometric").
  - destruct (new_CoordinateTaskMapper srv (comm_ (this w))) as [e | alg]; [discriminate |].
    destruct (CoordinateTaskMapper_map srv alg s0) as [e | s1]; [discriminate |].
    intros _. cbn [snd this put_soln getSolution soln machine partSoln pl]. eauto.
  - intros _. cbn [snd this put_soln getSolution soln machine partSoln pl]. eauto.
Qed.

End MappingProblemConstruction.

Section MappingProblemMoreExamples.
Import Zoltan2.

Lemma solve_parameter_not_a_string_witness :
  solve sample_services "default" true
    (mkWorld (sample_problem {[ "mapping_algorithm"%string := entry_other "int" ]}) [])
  = (inl bad_any_cast,
     mkWorld (put_soln (sample_problem {[ "mapping_algorithm"%string := entry_other "int" ]})
                (Some 0%nat))
             ([] ++ [created_MappingSolution])).
Proof.
  apply (solve_parameter_not_a_string sample_services "default" true
           (mkWorld (sample_problem {[ "mapping_algorithm"%string := entry_other "int" ]}) [])
           0%nat "int");
    [reflexivity | vm_compute; reflexivity].
Defined.

Lemma solve_after_construction_witness :
  is_Some (getSolution
             (this (solve sample_services "default" true
                      (MappingProblem_new sample_services ∅ tt (@None unit) None).2).2)) /\
  is_Some (machine
             (this (solve sample_services "default" true
                      (MappingProblem_new sample_services ∅ tt (@None unit) None).2).2)) /\
  partSoln (this (solve sample_services "default" true
                    (MappingProblem_new sample_services ∅ tt (@None unit) None).2).2)
  = None /\
  pl (this (solve sample_services "default" true
              (MappingProblem_new sample_services ∅ tt (@None unit) None).2).2)
  = ∅.
Proof.
  apply (solve_after_construction sample_services "default" ∅ tt (@None unit) None true);
    reflexivity.
Defined.

(** An algorithm that throws: the problem holds the new solution as the
    algorithm left it. *)
Example solve_map_throws :
  solve sample_services_throwing_map "geometric" true (mkWorld (sample_problem ∅) [])
  = (inl (std_exception "map"),
     mkWorld (put_soln (sample_problem ∅) (Some 7%nat))
             [created_MappingSolution; created_CoordinateTaskMapper; invoked_map]).
Proof. vm_compute. reflexivity. Qed.

End MappingProblemMoreExamples.

(** ** tpetra: more on [switchActiveCrsMatrix], [doOverlapToLocal] and
    [doLocalToOverlap] *)

Section FECrsMatrixMore.
Import Tpetra.
Context {FEWhichActive : Type} `{EqDecision FEWhichActive} {CrsMatrix CombineMode : Type}.
Variables FE_ACTIVE_OVERLAP FE_ACTIVE_LOCAL : FEWhichActive.
Implicit Types (mem : Memory FEWhichActive CrsMatrix) (m : FECrsMatrix CrsMatrix)
  (this other cell : positive) (flag : FEWhichActive) (CM : CombineMode).

Lemma active_flag_Some this mem flag :
  active_flag this mem = Some flag <->
  exists m cell,
    matrices mem !! this = Some m /\ activeCrsMatrix_ m = Some cell /\
    flags mem !! cell = Some flag.
Proof.
  unfold active_flag. split.
  - destruct (matrices mem !! this) as [m |]; [| discriminate]. simpl.
    destruct (activeCrsMatrix_ m) as [cell |] eqn:Hcell; [| discriminate]. simpl.
    intros Hflag. eauto.
  - intros (m & cell & -> & Hcell & Hflag). simpl. rewrite Hcell. exact Hflag.
Qed.

Lemma switchActiveCrsMatrix_inv this mem mem1 :
  switchActiveCrsMatrix FE_ACTIVE_OVERLAP FE_ACTIVE_LOCAL this mem = Some mem1 ->
  exists m cell flag,
    matrices mem !! this = Some m /\ activeCrsMatrix_ m = Some cell /\
    flags mem !! cell = Some flag /\
    mem1 = mkMemory (matrices mem)
             (<[cell := toggled FE_ACTIVE_OVERLAP FE_ACTIVE_LOCAL flag]> (flags mem)).
Proof.
  intros Hrun. destruct (active_flag this mem) as [flag |] eqn:Hflag.
  - apply active_flag_Some in Hflag as (m & cell & Hm & Hcell & Hflag).
    rewrite (switchActiveCrsMatrix_run FE_ACTIVE_OVERLAP FE_ACTIVE_LOCAL
               this mem m cell flag Hm Hcell Hflag) in Hrun.
    injection Hrun as <-. eauto 8.
  - unfold switchActiveCrsMatrix in Hrun. rewrite Hflag in Hrun. discriminate Hrun.
Qed.

(** X8. [switchActiveCrsMatrix] is defined exactly when the flag can be
    read: it has no result when the object does not exist, its RCP is null
    or the cell it points to is gone, and a result otherwise. *)
Theorem switchActiveCrsMatrix_defined this mem :
  switchActiveCrsMatrix FE_ACTIVE_OVERLAP FE_ACTIVE_LOCAL this mem = None
  <-> active_flag this mem = None.
Proof.
  split.
  - intros Hrun. destruct (active_flag this mem) as [flag |] eqn:Hflag; [| reflexivity].
    apply active_flag_Some in Hflag as (m & cell & Hm & Hcell & Hflag).
    rewrite (switchActiveCrsMatrix_run FE_ACTIVE_OVERLAP FE_ACTIVE_LOCAL
               this mem m cell flag Hm Hcell Hflag) in Hrun.
    discriminate Hrun.
  - intros Hflag. unfold switchActiveCrsMatrix. now rewrite Hflag.
Qed.

Lemma toggled_range flag :
  toggled FE_ACTIVE_OVERLAP FE_ACTIVE_LOCAL flag = FE_ACTIVE_OVERLAP \/
  toggled FE_ACTIVE_OVERLAP FE_ACTIVE_LOCAL flag = FE_ACTIVE_LOCAL.
Proof. unfold toggled. case_decide; auto. Qed.

(** X9. After one call the flag is one of the two enumerators, whatever
    it was before, and the object is in a cycle of length two: two more
    calls bring back the state the first call left.  A value that is
    neither enumerator therefore never comes back. *)
Theorem switchActiveCrsMatrix_cycle this mem mem1 :
  FE_ACTIVE_OVERLAP <> FE_ACTIVE_LOCAL ->
  switchActiveCrsMatrix FE_ACTIVE_OVERLAP FE_ACTIVE_LOCAL this mem = Some mem1 ->
  (active_flag this mem1 = Some FE_ACTIVE_OVERLAP \/
   active_flag this mem1 = Some FE_ACTIVE_LOCAL) /\
  exists mem2,
    switchActiveCrsMatrix FE_ACTIVE_OVERLAP FE_ACTIVE_LOCAL this mem1 = Some mem2 /\
    switchActiveCrsMatrix FE_ACTIVE_OVERLAP FE_ACTIVE_LOCAL this mem2 = Some mem1.
Proof.
  intros Hdistinct Hrun.
  apply switchActiveCrsMatrix_inv in Hrun as (m & cell & flag & Hm & Hcell & Hflag & ->).
  set (flag1 := toggled FE_ACTIVE_OVERLAP FE_ACTIVE_LOCAL flag).
  assert (Hread : active_flag this (mkMemory (matrices mem) (<[cell := flag1]> (flags mem)))
                  = Some flag1).
  { apply active_flag_Some. exists m, cell. simpl. now rewrite lookup_insert_eq. }
  split.
  - rewrite Hread. unfold flag1. destruct (toggled_range flag) as [-> | ->]; auto.
  - eexists. split.
    + apply (switchActiveCrsMatrix_run FE_ACTIVE_OVERLAP FE_ACTIVE_LOCAL this
               (mkMemory (matrices mem) _) m cell flag1 Hm Hcell).
      simpl. apply lookup_insert_eq.
    + rewrite (switchActiveCrsMatrix_run FE_ACTIVE_OVERLAP FE_ACTIVE_LOCAL this
                 (mkMemory (matrices mem) _) m cell
                 (toggled FE_ACTIVE_OVERLAP FE_ACTIVE_LOCAL flag1) Hm Hcell)
        by (simpl; apply lookup_insert_eq).
      simpl. rewrite !insert_insert_eq.
      now rewrite (toggled_twice FE_ACTIVE_OVERLAP FE_ACTIVE_LOCAL flag1 Hdistinct
                     (toggled_range flag)).
Qed.

(** X10. The flag is shared through the RCP: a call on one matrix toggles
    the flag that every matrix pointing to the same cell reads, and leaves
    the flag of a matrix with another cell as it was. *)
Theorem switchActiveCrsMatrix_shared_flag this other mem mem1 m m' cell :
  switchActiveCrsMatrix FE_ACTIVE_OVERLAP FE_ACTIVE_LOCAL this mem = Some mem1 ->
  matrices mem !! this = Some m -> activeCrsMatrix_ m = Some cell ->
  matrices mem !! other = Some m' ->
  (activeCrsMatrix_ m' = Some cell ->
   active_flag other mem1 = active_flag this mem1 /\
   active_flag other mem1
   = toggled FE_ACTIVE_OVERLAP FE_ACTIVE_LOCAL <$> active_flag other mem) /\
  (activeCrsMatrix_ m' <> Some cell -> active_flag other mem1 = active_flag other mem).
Proof.
  intros Hrun Hm Hcell Hm'.
  apply switchActiveCrsMatrix_inv in Hrun as (m0 & cell0 & flag & Hm0 & Hcell0 & Hflag & ->).
  assert (m0 = m) as -> by congruence. assert (cell0 = cell) as -> by congruence.
  split.
  - intros Hcell'.
    rewrite (active_flag_lookup other (mkMemory (matrices mem) _) m' cell Hm' Hcell').
    rewrite (active_flag_lookup this (mkMemory (matrices mem) _) m cell Hm Hcell).
    rewrite (active_flag_lookup other mem m' cell Hm' Hcell'), Hflag.
    simpl. rewrite lookup_insert_eq. split; reflexivity.
  - intros Hcell'. unfold active_flag. simpl. rewrite Hm'. simpl.
    destruct (activeCrsMatrix_ m') as [cell' |]; [| reflexivity]. simpl.
    apply lookup_insert_ne. congruence.
Qed.

(** X11. [doOverlapToLocal] and [doLocalToOverlap] change nothing.
    [doLocalToOverlap] always returns; [doOverlapToLocal] reads the flag
    only when the inactive matrix is not null, so it has no result exactly
    when the object is missing, or the inactive matrix is set and the flag
    cannot be read. *)
Theorem doOverlapToLocal_changes_nothing this CM mem :
  (forall mem', doOverlapToLocal FE_ACTIVE_OVERLAP this CM mem = Some mem' -> mem' = mem) /\
  doLocalToOverlap this CM mem = Some mem /\
  (doOverlapToLocal FE_ACTIVE_OVERLAP this CM mem = None <->
   matrices mem !! this = None \/
   exists m, matrices mem !! this = Some m /\
             is_Some (inactiveCrsMatrix_ m) /\ active_flag this mem = None).
Proof.
  unfold doOverlapToLocal, doLocalToOverlap. split; [| split; [reflexivity |]].
  - intros mem'. destruct (matrices mem !! this) as [m |]; [| discriminate]. simpl.
    destruct (inactiveCrsMatrix_ m); simpl; [| congruence].
    destruct (active_flag this mem) as [flag |]; [| discriminate]. simpl.
    case_decide; congruence.
  - destruct (matrices mem !! this) as [m |] eqn:Hm; simpl.
    + destruct (inactiveCrsMatrix_ m) as [inactive |] eqn:Hinactive; simpl.
      * destruct (active_flag this mem) as [flag |] eqn:Hflag; simpl.
        -- split; [case_decide; discriminate |].
           intros [H' | (m0 & _ & _ & H')]; discriminate H'.
        -- split; [intros _ | reflexivity]. right. exists m.
           rewrite Hinactive. eauto.
      * split; [discriminate |].
        intros [H' | (m0 & Hm0 & [x Hx] & _)]; [discriminate H' |].
        injection Hm0 as <-. congruence.
    + split; [auto | reflexivity].
Qed.

End FECrsMatrixMore.

Section FECrsMatrixMoreExamples.
Import Tpetra.

Example switch_shared :
  (fun mem' => (active_flag 1%positive mem', active_flag 2%positive mem',
                active_flag 3%positive mem'))
    <$> switchActiveCrsMatrix 0 1 1%positive (sample_shared_memory 0 0)
  = Some (Some 1, Some 1, Some 0).
Proof. vm_compute. reflexivity. Qed.

Lemma switchActiveCrsMatrix_cycle_witness :
  (active_flag 1%positive (sample_memory 0) = Some 0 \/
   active_flag 1%positive (sample_memory 0) = Some 1) /\
  exists mem2,
    switchActiveCrsMatrix 0 1 1%positive (sample_memory 0) = Some mem2 /\
    switchActiveCrsMatrix 0 1 1%positive mem2 = Some (sample_memory 0).
Proof.
  apply (switchActiveCrsMatrix_cycle 0 1 1%positive (sample_memory 7) (sample_memory 0));
    [discriminate | vm_compute; reflexivity].
Defined.

Lemma switchActiveCrsMatrix_shared_flag_witness :
  (Some 1%positive = Some 1%positive ->
   active_flag 2%positive (sample_shared_memory 1 0)
   = active_flag 1%positive (sample_shared_memory 1 0) /\
   active_flag 2%positive (sample_shared_memory 1 0)
   = toggled 0 1 <$> active_flag 2%positive (sample_shared_memory 0 0)) /\
  (Some 1%positive <> Some 1%positive ->
   active_flag 2%positive (sample_shared_memory 1 0)
   = active_flag 2%positive (sample_shared_memory 0 0)).
Proof.
  apply (switchActiveCrsMatrix_shared_flag 0 1 1%positive 2%positive
           (sample_shared_memory 0 0) (sample_shared_memory 1 0)
           (mkFECrsMatrix tt (Some 1%positive) None)
           (mkFECrsMatrix tt (Some 1%positive) (Some 1%positive)) 1%positive);
    [vm_compute; reflexivity | reflexivity | reflexivity | reflexivity].
Defined.

End FECrsMatrixMoreExamples.

(** ** panzer: [fillFieldContainer] *)
Section FillFieldContainer.
Import Teuchos panzer.

(** A loop whose iterations keep an invariant of the local variable and
    end in the state they started in does so as a whole, and each of its
    iterations ran to its end from a variable with the invariant. *)
Lemma for_fold_each {L} (I : L -> Prop) (body : nat -> L -> Test L) :
  (forall i acc s acc' s', I acc -> body i acc s = Done acc' s' -> I acc' /\ s' = s) ->
  forall n start acc s acc' s',
    I acc -> for_fold start n body acc s = Done acc' s' ->
    I acc' /\ s' = s /\
    forall i, (start <= i < start + n)%nat ->
              exists a a', I a /\ body i a s = Done a' s.
Proof.
  intros Hbody. induction n as [| n IH]; intros start acc s acc' s' Hacc Hrun.
  - injection Hrun as <- <-. split; [exact Hacc | split; [reflexivity | lia]].
  - simpl in Hrun. apply bind_done_inv in Hrun as (acc1 & s1 & Hfirst & Hrest).
    destruct (Hbody _ _ _ _ _ Hacc Hfirst) as [Hacc1 ->].
    destruct (IH _ _ _ _ _ Hacc1 Hrest) as (Hacc' & -> & Heach).
    split; [exact Hacc' | split; [reflexivity |]]. intros i Hi.
    destruct (decide (i = start)) as [-> | Hne]; [eauto | apply Heach; lia].
Qed.

Lemma store_inv (data data' : FieldContainer) (i : nat) (x : Z) (s s' : TestState) :
  store data i x s = Done data' s' ->
  (i < length (values data))%nat /\ s' = s /\
  data' = mkFC (dims data) (<[i := x]> (values data)).
Proof.
  unfold store. case_decide; [| discriminate]. intros [= <- <-]. auto.
Qed.

Lemma set2_inv (data data' : FieldContainer) (e f : nat) (x : Z) (s s' : TestState) :
  shaped [1; 4]%nat data -> set2 data e f x s = Done data' s' ->
  shaped [1; 4]%nat data' /\ s' = s /\ (e * 4 + f < 4)%nat.
Proof.
  intros [Hdims Hlen]. unfold set2. rewrite Hdims. intros Hrun.
  apply store_inv in Hrun as (Hi & -> & ->). unfold shaped. simpl.
  rewrite length_insert. simpl in Hlen. repeat split; auto; lia.
Qed.

Lemma set3_inv (cols : nat) (data data' : FieldContainer) (e f c : nat) (x : Z)
    (s s' : TestState) :
  shaped [1; 4; cols]%nat data -> set3 data e f c x s = Done data' s' ->
  shaped [1; 4; cols]%nat data' /\ s' = s /\ ((e * 4 + f) * cols + c < 4 * cols)%nat.
Proof.
  intros [Hdims Hlen]. unfold set3. rewrite Hdims. intros Hrun.
  apply store_inv in Hrun as (Hi & -> & ->). unfold shaped. simpl.
  rewrite length_insert. simpl in Hlen. repeat split; auto; lia.
Qed.

Lemma at_inv (v : list Z) (i : nat) (x : Z) (s s' : TestState) :
  at_ v i s = Done x s' -> v !! i = Some x /\ s' = s.
Proof. unfold at_. destruct (v !! i); [| discriminate]. intros [= <- <-]. auto. Qed.

Lemma at_int_inv (v : list Z) (i x : Z) (s s' : TestState) :
  at_int v i s = Done x s' -> 0 <= i /\ v !! Z.to_nat i = Some x /\ s' = s.
Proof.
  unfold at_int. destruct (Z.ltb_spec i 0); [discriminate |].
  intros H'. apply at_inv in H'. tauto.
Qed.

Lemma call_inv {A} (r : Result A) (a : A) (s s' : TestState) :
  call r s = Done a s' -> r = Ok a /\ s' = s.
Proof. destruct r; [| discriminate]. intros [= <- <-]. auto. Qed.

Lemma shaped_resize (ds : list nat) : shaped ds (resize ds).
Proof. split; [reflexivity |]. simpl. apply length_replicate. Qed.

(** X12. [fillFieldContainer] compares nothing: when it returns, the test
    state is the one it started in, and the container has the dimensions
    (1,4) with four values.  It returns only when no write left the
    container: the block has no element, or the field no offset, or the
    block has one element and the field at most four offsets. *)
Theorem fillFieldContainer_returns (fieldNum : Z) (blockId : string)
    (ugi : UniqueGlobalIndexer) (s s' : TestState) (data : FieldContainer) :
  fillFieldContainer fieldNum blockId ugi s = Done data s' ->
  s' = s /\ dims data = [1; 4]%nat /\ length (values data) = 4%nat /\
  exists elements fieldOffsets,
    getElementBlock ugi blockId = Ok elements /\
    getGIDFieldOffsets ugi blockId fieldNum = Ok fieldOffsets /\
    (elements = [] \/ fieldOffsets = [] \/
     (length elements = 1 /\ length fieldOffsets <= 4)%nat).
Proof.
  unfold fillFieldContainer. cbv zeta. intros Hrun.
  apply bind_done_inv in Hrun as (elements & s1 & Hel & Hrun).
  apply call_inv in Hel as [Hel ->].
  apply bind_done_inv in Hrun as (fieldOffsets & s2 & Hoff & Hrun).
  apply call_inv in Hoff as [Hoff ->].
  assert (Hinner : forall e acc t acc' t' gids,
             shaped [1; 4]%nat acc ->
             for_fold 0 (length fieldOffsets)
               (fun f data0 => at_ fieldOffsets f ≫= fun off =>
                               at_int gids off ≫= fun gid => set2 data0 e f gid) acc t
             = Done acc' t' ->
             shaped [1; 4]%nat acc' /\ t' = t /\
             forall f, (f < length fieldOffsets)%nat -> (e * 4 + f < 4)%nat).
  { intros e acc t acc' t' gids Hacc Hloop.
    apply (for_fold_each (shaped [1; 4]%nat)) in Hloop as (Hacc' & -> & Heach);
      [| | exact Hacc].
    - split; [exact Hacc' | split; [reflexivity |]]. intros f Hf.
      destruct (Heach f) as (a & a' & Ha & Hbody); [lia |].
      apply bind_done_inv in Hbody as (off & t1 & Hat & Hbody). apply at_inv in Hat as [_ ->].
      apply bind_done_inv in Hbody as (gid & t2 & Hat & Hbody).
      apply at_int_inv in Hat as (_ & _ & ->).
      now apply set2_inv in Hbody.
    - intros f a t0 a' t0' Ha Hbody.
      apply bind_done_inv in Hbody as (off & t1 & Hat & Hbody). apply at_inv in Hat as [_ ->].
      apply bind_done_inv in Hbody as (gid & t2 & Hat & Hbody).
      apply at_int_inv in Hat as (_ & _ & ->).
      apply set2_inv in Hbody; tauto. }
  apply (for_fold_each (shaped [1; 4]%nat)) in Hrun as ([Hdims Hlen] & -> & Heach);
    [| | apply shaped_resize].
  - split; [reflexivity | split; [exact Hdims | split; [exact Hlen |]]].
    exists elements, fieldOffsets. split; [exact Hel | split; [exact Hoff |]].
    destruct elements as [| el0 elements']; [now left |].
    destruct fieldOffsets as [| off0 fieldOffsets']; [right; now left |].
    right. right.
    destruct (Heach (length elements')) as (a & a' & Ha & Hbody); [simpl; lia |].
    apply bind_done_inv in Hbody as (elmt & t1 & Hat & Hbody). apply at_inv in Hat as [_ ->].
    apply bind_done_inv in Hbody as (gids & t2 & Hgids & Hbody).
    apply call_inv in Hgids as [_ ->].
    apply Hinner in Hbody as (_ & _ & Hbound); [| exact Ha].
    specialize (Hbound (length fieldOffsets')). simpl in *. lia.
  - intros e a t a' t' Ha Hbody.
    apply bind_done_inv in Hbody as (elmt & t1 & Hat & Hbody). apply at_inv in Hat as [_ ->].
    apply bind_done_inv in Hbody as (gids & t2 & Hgids & Hbody).
    apply call_inv in Hgids as [_ ->].
    apply Hinner in Hbody; tauto.
Qed.

(** X13. The overload with columns: when it returns, the state is the one
    it started in and the container has the dimensions (1,4,cols); it
    returns only when no write left the container, that is with no element,
    no offset, no column, or one element and at most four offsets. *)
Theorem fillFieldContainer_cols_returns (fieldNum : Z) (blockId : string)
    (ugi : UniqueGlobalIndexer) (cols : nat) (s s' : TestState) (data : FieldContainer) :
  fillFieldContainer_cols fieldNum blockId ugi cols s = Done data s' ->
  s' = s /\ dims data = [1; 4; cols]%nat /\ length (values data) = (4 * cols)%nat /\
  exists elements fieldOffsets,
    getElementBlock ugi blockId = Ok elements /\
    getGIDFieldOffsets ugi blockId fieldNum = Ok fieldOffsets /\
    (elements = [] \/ fieldOffsets = [] \/ cols = 0%nat \/
     (length elements = 1 /\ length fieldOffsets <= 4)%nat).
Proof.
  unfold fillFieldContainer_cols. cbv zeta. intros Hrun.
  apply bind_done_inv in Hrun as (elements & s1 & Hel & Hrun).
  apply call_inv in Hel as [Hel ->].
  apply bind_done_inv in Hrun as (fieldOffsets & s2 & Hoff & Hrun).
  apply call_inv in Hoff as [Hoff ->].
  assert (Hwrite : forall e f gids c a t a' t',
             shaped [1; 4; cols]%nat a ->
             (at_ fieldOffsets f ≫= fun off =>
              at_int gids off ≫= fun gid =>
              set3 a e f c (to_int (gid + Z.of_nat c))) t = Done a' t' ->
             shaped [1; 4; cols]%nat a' /\ t' = t /\ ((e * 4 + f) * cols + c < 4 * cols)%nat).
  { intros e f gids c a t a' t' Ha Hbody.
    apply bind_done_inv in Hbody as (off & t1 & Hat & Hbody). apply at_inv in Hat as [_ ->].
    apply bind_done_inv in Hbody as (gid & t2 & Hat & Hbody).
    apply at_int_inv in Hat as (_ & _ & ->).
    apply (set3_inv cols) in Hbody; [exact Hbody | exact Ha]. }
  assert (Hcolumns : forall e f gids a t a' t',
             shaped [1; 4; cols]%nat a ->
             for_fold 0 cols
               (fun c data0 => at_ fieldOffsets f ≫= fun off =>
                               at_int gids off ≫= fun gid =>
                               set3 data0 e f c (to_int (gid + Z.of_nat c))) a t
             = Done a' t' ->
             shaped [1; 4; cols]%nat a' /\ t' = t /\
             forall c, (c < cols)%nat -> ((e * 4 + f) * cols + c < 4 * cols)%nat).
  { intros e f gids a t a' t' Ha Hloop.
    apply (for_fold_each (shaped [1; 4; cols]%nat)) in Hloop as (Ha' & -> & Heach); [| | exact Ha].
    - split; [exact Ha' | split; [reflexivity |]]. intros c Hc.
      destruct (Heach c) as (b & b' & Hb & Hbody); [lia |].
      now apply Hwrite in Hbody.
    - intros c b t0 b' t0' Hb Hbody. apply Hwrite in Hbody; tauto. }
  assert (Hoffsets : forall e gids a t a' t',
             shaped [1; 4; cols]%nat a ->
             for_fold 0 (length fieldOffsets)
               (fun f data0 =>
                  for_fold 0 cols
                    (fun c data1 => at_ fieldOffsets f ≫= fun off =>
                                    at_int gids off ≫= fun gid =>
                                    set3 data1 e f c (to_int (gid + Z.of_nat c))) data0) a t
             = Done a' t' ->
             shaped [1; 4; cols]%nat a' /\ t' = t /\
             forall f c, (f < length fieldOffsets)%nat -> (c < cols)%nat ->
                         ((e * 4 + f) * cols + c < 4 * cols)%nat).
  { intros e gids a t a' t' Ha Hloop.
    apply (for_fold_each (shaped [1; 4; cols]%nat)) in Hloop as (Ha' & -> & Heach); [| | exact Ha].
    - split; [exact Ha' | split; [reflexivity |]]. intros f c Hf Hc.
      destruct (Heach f) as (b & b' & Hb & Hbody); [lia |].
      apply Hcolumns in Hbody as (_ & _ & Hbound); [| exact Hb]. now apply Hbound.
    - intros f b t0 b' t0' Hb Hbody. apply Hcolumns in Hbody; tauto. }
  apply (for_fold_each (shaped [1; 4; cols]%nat)) in Hrun as (Hshape & -> & Heach);
    [| | apply shaped_resize].
  - destruct Hshape as [Hdims Hlen].
    split; [reflexivity | split; [exact Hdims | split; [simpl in Hlen; lia |]]].
    exists elements, fieldOffsets. split; [exact Hel | split; [exact Hoff |]].
    destruct elements as [| el0 elements']; [now left |].
    destruct fieldOffsets as [| off0 fieldOffsets']; [right; now left |].
    destruct cols as [| cols']; [right; right; now left |].
    right. right. right.
    destruct (Heach (length elements')) as (a & a' & Ha & Hbody); [simpl; lia |].
    apply bind_done_inv in Hbody as (elmt & t1 & Hat & Hbody). apply at_inv in Hat as [_ ->].
    apply bind_done_inv in Hbody as (gids & t2 & Hgids & Hbody).
    apply call_inv in Hgids as [_ ->].
    apply Hoffsets in Hbody as (_ & _ & Hbound); [| exact Ha].
    specialize (Hbound (length fieldOffsets') 0%nat). simpl in *. nia.
  - intros e a t a' t' Ha Hbody.
    apply bind_done_inv in Hbody as (elmt & t1 & Hat & Hbody). apply at_inv in Hat as [_ ->].
    apply bind_done_inv in Hbody as (gids & t2 & Hgids & Hbody).
    apply call_inv in Hgids as [_ ->].
    apply Hoffsets in Hbody; tauto.
Qed.

Lemma for_fold_S {L} (body : nat -> L -> Test L) (start n : nat) (acc : L)
    (s : TestState) :
  for_fold start (S n) body acc s
  = match body start acc s with
    | Done acc' s' => for_fold (S start) n body acc' s'
    | Threw e s' => Threw e s'
    | Undefined => Undefined
    end.
Proof. reflexivity. Qed.

(** One turn of the loop over the offsets: the index at the offset is
    written after the values written so far. *)
Lemma offsets_step (gids done rest : list Z) (off : Z) (s : TestState) :
  (length done < 4)%nat -> 0 <= off < Z.of_nat (length gids) ->
  (at_ (done ++ off :: rest) (length done) ≫= fun off0 =>
   at_int gids off0 ≫= fun gid =>
   set2 (mkFC [1; 4]%nat
           (((fun o => gids !!! Z.to_nat o) <$> done) ++ replicate (4 - length done) 0))
        0 (length done) gid) s
  = Done (mkFC [1; 4]%nat
            (((fun o => gids !!! Z.to_nat o) <$> (done ++ [off]))
             ++ replicate (4 - length (done ++ [off])) 0)) s.
Proof.
  intros Hlen Hoff. rewrite bind_unfold. unfold at_ at 1.
  rewrite list_lookup_middle by reflexivity.
  rewrite bind_unfold. unfold at_int. destruct (Z.ltb_spec off 0) as [? | _]; [lia |].
  unfold at_. rewrite (list_lookup_lookup_total_lt gids (Z.to_nat off)) by lia.
  unfold set2, store. cbn [dims values Nat.mul Nat.add].
  rewrite decide_True by (rewrite length_app, length_fmap, length_replicate; lia).
  cbn [mret Test_ret ret]. f_equal. f_equal.
  rewrite length_app. cbn [length].
  replace (4 - length done)%nat with (S (4 - (length done + 1))) by lia.
  rewrite replicate_S, fmap_app, <- app_assoc. cbn [fmap list_fmap app].
  rewrite <- (Nat.add_0_r (length done)) at 1.
  rewrite <- (length_fmap (fun o => gids !!! Z.to_nat o) done) at 1.
  now rewrite insert_app_r.
Qed.

(** The loop over the offsets of the one element, started after the
    offsets [done]. *)
Lemma offsets_loop (gids : list Z) :
  forall (rest done : list Z) (s : TestState),
    (length done + length rest <= 4)%nat ->
    Forall (fun off => 0 <= off < Z.of_nat (length gids)) rest ->
    for_fold (length done) (length rest)
      (fun f data => at_ (done ++ rest) f ≫= fun off =>
                     at_int gids off ≫= fun gid => set2 data 0 f gid)
      (mkFC [1; 4]%nat
         (((fun o => gids !!! Z.to_nat o) <$> done) ++ replicate (4 - length done) 0)) s
    = Done
        (mkFC [1; 4]%nat
           (((fun o => gids !!! Z.to_nat o) <$> (done ++ rest))
            ++ replicate (4 - length (done ++ rest)) 0)) s.
Proof.
  induction rest as [| off rest IH]; intros done s Hlen Hrange.
  - rewrite app_nil_r. reflexivity.
  - apply Forall_cons in Hrange as [Hoff Hrange]. cbn [length] in Hlen |- *.
    rewrite for_fold_S. cbv beta. rewrite offsets_step by (try lia; assumption).
    specialize (IH (done ++ [off]) s).
    rewrite length_app in IH. cbn [length] in IH.
    replace (length done + 1)%nat with (S (length done)) in IH by lia.
    rewrite <- !app_assoc in IH. cbn [app] in IH.
    replace (length done + S (length rest))%nat
      with (S (length done) + length rest)%nat in Hlen by lia.
    rewrite length_app. cbn [length]. rewrite Nat.add_1_r.
    rewrite (IH Hlen Hrange). now rewrite !length_app.
Qed.

(** X14. For a block of one element whose field has at most four offsets,
    all of them positions of the element's index list, [fillFieldContainer]
    returns, in the state it started in, the container (1,4) that holds the
    element's index at each offset, in the order of the offsets, followed by
    zeros. *)
Theorem fillFieldContainer_one_element (fieldNum : Z) (blockId : string)
    (ugi : UniqueGlobalIndexer) (elmt : Z) (gids fieldOffsets : list Z) (s : TestState) :
  getElementBlock ugi blockId = Ok [elmt] ->
  getGIDFieldOffsets ugi blockId fieldNum = Ok fieldOffsets ->
  getElementGIDs ugi elmt = Ok gids ->
  (length fieldOffsets <= 4)%nat ->
  Forall (fun off => 0 <= off < Z.of_nat (length gids)) fieldOffsets ->
  fillFieldContainer fieldNum blockId ugi s
  = Done (mkFC [1; 4]%nat
            (((fun off => gids !!! Z.to_nat off) <$> fieldOffsets)
             ++ replicate (4 - length fieldOffsets) 0)) s.
Proof.
  intros Hel Hoff Hgids Hlen Hrange. unfold fillFieldContainer. cbv zeta.
  rewrite bind_unfold, Hel. cbn [call]. rewrite bind_unfold, Hoff. cbn [call length for_fold].
  rewrite bind_unfold, bind_unfold. cbn [at_ lookup list_lookup].
  rewrite bind_unfold, Hgids. cbn [call].
  pose proof (offsets_loop gids fieldOffsets [] s) as Hloop.
  cbn [length app fmap list_fmap Nat.add] in Hloop.
  unfold resize. cbn [foldr Nat.mul Nat.add].
  change (replicate 4 0) with (replicate (4 - 0) 0). rewrite Hloop by (try lia; assumption).
  reflexivity.
Qed.

End FillFieldContainer.

Section FillFieldContainerExamples.
Import Teuchos panzer.

Lemma fillFieldContainer_one_element_witness :
  fillFieldContainer 1 "block_0" (sample_indexer []) fresh
  = Done (mkFC [1; 4]%nat
            (((fun off => [0; 1; 2; 3; 4; 5; 6; 7] !!! Z.to_nat off) <$> [1; 3; 5; 7])
             ++ replicate (4 - length [1; 3; 5; 7]) 0)) fresh.
Proof.
  apply (fillFieldContainer_one_element 1 "block_0" (sample_indexer []) 0
           [0; 1; 2; 3; 4; 5; 6; 7] [1; 3; 5; 7] fresh);
    [reflexivity | reflexivity | reflexivity | simpl; lia |].
  repeat (apply List.Forall_cons; [simpl; lia |]). apply List.Forall_nil.
Defined.

Lemma fillFieldContainer_returns_witness :
  fresh = fresh /\ dims (mkFC [1; 4]%nat [0; 2; 4; 6]) = [1; 4]%nat /\
  length (values (mkFC [1; 4]%nat [0; 2; 4; 6])) = 4%nat /\
  exists elements fieldOffsets,
    getElementBlock (sample_indexer []) "block_0" = Ok elements /\
    getGIDFieldOffsets (sample_indexer []) "block_0" 0 = Ok fieldOffsets /\
    (elements = [] \/ fieldOffsets = [] \/
     (length elements = 1 /\ length fieldOffsets <= 4)%nat).
Proof.
  apply (fillFieldContainer_returns 0 "block_0" (sample_indexer []) fresh fresh
           (mkFC [1; 4]%nat [0; 2; 4; 6])).
  reflexivity.
Defined.

Lemma fillFieldContainer_cols_returns_witness :
  fresh = fresh /\ dims (mkFC [1; 4; 2]%nat [1; 2; 3; 4; 5; 6; 7; 8]) = [1; 4; 2]%nat /\
  length (values (mkFC [1; 4; 2]%nat [1; 2; 3; 4; 5; 6; 7; 8])) = (4 * 2)%nat /\
  exists elements fieldOffsets,
    getElementBlock (sample_indexer []) "block_0" = Ok elements /\
    getGIDFieldOffsets (sample_indexer []) "block_0" 1 = Ok fieldOffsets /\
    (elements = [] \/ fieldOffsets = [] \/ 2%nat = 0%nat \/
     (length elements = 1 /\ length fieldOffsets <= 4)%nat).
Proof.
  apply (fillFieldContainer_cols_returns 1 "block_0" (sample_indexer []) 2 fresh fresh
           (mkFC [1; 4; 2]%nat [1; 2; 3; 4; 5; 6; 7; 8])).
  reflexivity.
Defined.

End FillFieldContainerExamples.

Section FillFieldContainerCols.
Import Teuchos panzer.

(** A loop whose turn [i] appends the row [row i], of [w] values, to the
    values written so far, over the zeros that [resize] left. *)
Lemma rows_loop (ds : list nat) (w base total : nat) (row : nat -> list Z)
    (body : nat -> FieldContainer -> Test FieldContainer) (s : TestState) :
  (forall i, length (row i) = w) ->
  forall (n start : nat) (pre : list Z) (m : nat),
    length pre = (base + start * w)%nat -> (n * w <= m)%nat ->
    (length pre + m = total)%nat ->
    (forall i pre' m',
       (start <= i < start + n)%nat -> length pre' = (base + i * w)%nat ->
       (w <= m')%nat -> (length pre' + m' = total)%nat ->
       body i (mkFC ds (pre' ++ replicate m' 0)) s
       = Done (mkFC ds ((pre' ++ row i) ++ replicate (m' - w) 0)) s) ->
    for_fold start n body (mkFC ds (pre ++ replicate m 0)) s
    = Done (mkFC ds ((pre ++ mjoin (row <$> seq start n)) ++ replicate (m - n * w) 0)) s.
Proof.
  intros Hrow. induction n as [| n IH]; intros start pre m Hpre Hm Htotal Hbody.
  - cbn [seq fmap list_fmap mjoin list_join Nat.mul]. rewrite app_nil_r, Nat.sub_0_r.
    reflexivity.
  - rewrite for_fold_S, (Hbody start pre m) by lia.
    rewrite (IH (S start) (pre ++ row start) (m - w)%nat).
    + cbn [seq fmap list_fmap mjoin list_join]. rewrite <- !app_assoc.
      cbn [Nat.mul]. replace (m - w - n * w)%nat with (m - (w + n * w))%nat by lia.
      reflexivity.
    + rewrite length_app, Hrow. lia.
    + lia.
    + rewrite length_app, Hrow. lia.
    + intros i pre' m' Hi Hpre' Hm' Htotal'. apply Hbody; [lia | assumption ..].
Qed.

(** One write of the overload with columns. *)
Lemma column_step (cols f c : nat) (fieldOffsets gids pre : list Z) (off : Z) (m : nat)
    (s : TestState) :
  fieldOffsets !! f = Some off -> 0 <= off < Z.of_nat (length gids) ->
  length pre = (f * cols + c * 1)%nat -> (1 <= m)%nat ->
  (at_ fieldOffsets f ≫= fun off0 =>
   at_int gids off0 ≫= fun gid =>
   set3 (mkFC [1; 4; cols]%nat (pre ++ replicate m 0)) 0 f c
        (to_int (gid + Z.of_nat c))) s
  = Done (mkFC [1; 4; cols]%nat
            ((pre ++ [to_int (gids !!! Z.to_nat off + Z.of_nat c)])
             ++ replicate (m - 1) 0)) s.
Proof.
  intros Hf Hoff Hpre Hm. rewrite bind_unfold. unfold at_ at 1. rewrite Hf.
  rewrite bind_unfold. unfold at_int. destruct (Z.ltb_spec off 0) as [? | _]; [lia |].
  unfold at_. rewrite (list_lookup_lookup_total_lt gids (Z.to_nat off)) by lia.
  unfold set3, store. cbn [dims values Nat.mul Nat.add].
  rewrite decide_True by (rewrite length_app, length_replicate; lia).
  cbn [mret Test_ret ret]. f_equal. f_equal.
  replace (f * cols + c)%nat with (length pre + 0)%nat by lia.
  rewrite insert_app_r, <- app_assoc. f_equal.
  destruct m as [| m]; [lia |]. cbn [replicate app insert list_insert Nat.sub].
  now rewrite Nat.sub_0_r.
Qed.

Lemma join_singletons {A} (l : list A) : mjoin ((fun x => [x]) <$> l) = l.
Proof. induction l as [| x l IH]; [reflexivity |]. cbn. f_equal. exact IH. Qed.

Lemma length_join_same {A} (n : nat) (ls : list (list A)) :
  Forall (fun l => length l = n) ls -> length (mjoin ls) = (length ls * n)%nat.
Proof.
  induction 1 as [| l ls Hl _ IH]; [reflexivity |].
  change (mjoin (l :: ls)) with (l ++ mjoin ls). rewrite length_app, IH, Hl. reflexivity.
Qed.

Lemma fillFieldContainer_cols_run (fieldNum : Z) (blockId : string)
    (ugi : UniqueGlobalIndexer) (elmt : Z) (gids fieldOffsets : list Z) (cols : nat)
    (s : TestState) :
  getElementBlock ugi blockId = Ok [elmt] ->
  getGIDFieldOffsets ugi blockId fieldNum = Ok fieldOffsets ->
  getElementGIDs ugi elmt = Ok gids ->
  (length fieldOffsets <= 4)%nat ->
  Forall (fun off => 0 <= off < Z.of_nat (length gids)) fieldOffsets ->
  fillFieldContainer_cols fieldNum blockId ugi cols s
  = Done (mkFC [1; 4; cols]%nat
            (mjoin (shifted gids cols <$> fieldOffsets)
             ++ replicate ((4 - length fieldOffsets) * cols) 0)) s.
Proof.
  intros Hel Hoff Hgids Hlen Hrange. unfold fillFieldContainer_cols. cbv zeta.
  rewrite bind_unfold, Hel. cbn [call]. rewrite bind_unfold, Hoff. cbn [call length].
  rewrite for_fold_S. rewrite bind_unfold. cbn [at_ lookup list_lookup].
  rewrite bind_unfold, Hgids. cbn [call].
  unfold resize. replace (foldr Nat.mul 1%nat [1; 4; cols]%nat) with (4 * cols)%nat
    by (cbn [foldr]; lia).
  change (replicate (4 * cols) 0) with ([] ++ replicate (4 * cols) 0).
  pose proof (rows_loop [1; 4; cols]%nat cols 0 (4 * cols)
                (fun f => shifted gids cols (fieldOffsets !!! f))
                (fun f data0 =>
                   for_fold 0 cols
                     (fun c data1 => at_ fieldOffsets f ≫= fun off =>
                                     at_int gids off ≫= fun gid =>
                                     set3 data1 0 f c (to_int (gid + Z.of_nat c))) data0)
                s) as Hrows.
  rewrite (Hrows ltac:(intros i; unfold shifted; now rewrite length_fmap, length_seq)
             (length fieldOffsets) 0%nat [] (4 * cols)%nat);
    [| reflexivity | nia | reflexivity |].
  - cbn [for_fold mret Test_ret ret app].
    replace (4 * cols - length fieldOffsets * cols)%nat
      with ((4 - length fieldOffsets) * cols)%nat by nia.
    replace ((fun f => shifted gids cols (fieldOffsets !!! f)) <$> seq 0 (length fieldOffsets))
      with (shifted gids cols <$> fieldOffsets); [reflexivity |].
    apply list_eq. intros f. rewrite !list_lookup_fmap.
    destruct (decide (f < length fieldOffsets)%nat) as [Hf | Hf].
    + rewrite lookup_seq_lt by lia. cbn.
      destruct (lookup_lt_is_Some_2 fieldOffsets f Hf) as [off Hoff'].
      rewrite Hoff'. cbn. now rewrite (list_lookup_total_correct _ _ _ Hoff').
    + rewrite lookup_seq_ge by lia. now rewrite lookup_ge_None_2 by lia.
  - intros f pre' m' Hf Hpre' Hm' Htotal.
    destruct (lookup_lt_is_Some_2 fieldOffsets f ltac:(lia)) as [off Hoff'].
    rewrite (list_lookup_total_correct _ _ _ Hoff').
    assert (Hin : 0 <= off < Z.of_nat (length gids)).
    { rewrite Forall_lookup in Hrange. exact (Hrange f off Hoff'). }
    pose proof (rows_loop [1; 4; cols]%nat 1 (f * cols) (4 * cols)
                  (fun c => [to_int (gids !!! Z.to_nat off + Z.of_nat c)])
                  (fun c data1 => at_ fieldOffsets f ≫= fun off0 =>
                                  at_int gids off0 ≫= fun gid =>
                                  set3 data1 0 f c (to_int (gid + Z.of_nat c)))
                  s ltac:(reflexivity) cols 0%nat pre' m') as Hcolumn.
    rewrite Hcolumn; [| lia | lia | lia |].
    + unfold shifted. rewrite Nat.mul_1_r.
      pose proof (join_singletons
                    ((fun c => to_int (gids !!! Z.to_nat off + Z.of_nat c)) <$> seq 0 cols))
        as Hjoin.
      rewrite <- list_fmap_compose in Hjoin. unfold compose in Hjoin. now rewrite Hjoin.
    + intros c pre'' m'' Hc Hpre'' Hm'' Htotal'.
      now apply column_step.
Qed.

(** X15. The overload with columns, for a block of one element whose
    field has at most four offsets, all of them positions of the element's
    index list: it returns the container (1,4,cols) in which the entry
    (0,f,c) is the index at the offset f plus c, as an int, and the entries
    of the rows without an offset are zero. *)
Theorem fillFieldContainer_cols_one_element (fieldNum : Z) (blockId : string)
    (ugi : UniqueGlobalIndexer) (elmt : Z) (gids fieldOffsets : list Z) (cols : nat)
    (s : TestState) :
  getElementBlock ugi blockId = Ok [elmt] ->
  getGIDFieldOffsets ugi blockId fieldNum = Ok fieldOffsets ->
  getElementGIDs ugi elmt = Ok gids ->
  (length fieldOffsets <= 4)%nat ->
  Forall (fun off => 0 <= off < Z.of_nat (length gids)) fieldOffsets ->
  exists data,
    fillFieldContainer_cols fieldNum blockId ugi cols s = Done data s /\
    dims data = [1; 4; cols]%nat /\
    (forall f c off,
       fieldOffsets !! f = Some off -> (c < cols)%nat ->
       values data !! (f * cols + c)%nat
       = Some (to_int (gids !!! Z.to_nat off + Z.of_nat c))) /\
    (forall f c,
       (length fieldOffsets <= f < 4)%nat -> (c < cols)%nat ->
       values data !! (f * cols + c)%nat = Some 0).
Proof.
  intros Hel Hoff Hgids Hlen Hrange.
  rewrite (fillFieldContainer_cols_run fieldNum blockId ugi elmt gids fieldOffsets cols s
             Hel Hoff Hgids Hlen Hrange).
  eexists. split; [reflexivity |]. split; [reflexivity |].
  - cbn [values].
    assert (Hrows : Forall (fun l => length l = cols) (shifted gids cols <$> fieldOffsets)).
    { apply Forall_fmap, Forall_true. intros off. unfold compose, shifted.
      now rewrite length_fmap, length_seq. }
    assert (Hjoin : length (mjoin (shifted gids cols <$> fieldOffsets))
                    = (length fieldOffsets * cols)%nat).
    { rewrite (length_join_same cols _ Hrows). now rewrite length_fmap. }
    split.
    + intros f c off Hf Hc. pose proof (lookup_lt_Some _ _ _ Hf) as Hlt.
      rewrite lookup_app_l by (rewrite Hjoin; nia).
      apply (join_lookup_Some_same_length' cols _ f c _ Hrows Hc).
      exists (shifted gids cols off). split.
      * now rewrite list_lookup_fmap, Hf.
      * unfold shifted. rewrite list_lookup_fmap, lookup_seq_lt by lia. reflexivity.
    + intros f c Hf Hc. rewrite lookup_app_r by (rewrite Hjoin; nia).
      apply lookup_replicate_2. rewrite Hjoin. nia.
Qed.

End FillFieldContainerCols.

Section FillFieldContainerColsExamples.
Import Teuchos panzer.

Lemma fillFieldContainer_cols_one_element_witness :
  exists data,
    fillFieldContainer_cols 1 "block_0" (sample_indexer []) 5 fresh = Done data fresh /\
    dims data = [1; 4; 5]%nat /\
    (forall f c off,
       [1; 3; 5; 7] !! f = Some off -> (c < 5)%nat ->
       values data !! (f * 5 + c)%nat
       = Some (to_int ([0; 1; 2; 3; 4; 5; 6; 7] !!! Z.to_nat off + Z.of_nat c))) /\
    (forall f c,
       (length [1; 3; 5; 7] <= f < 4)%nat -> (c < 5)%nat ->
       values data !! (f * 5 + c)%nat = Some 0).
Proof.
  apply (fillFieldContainer_cols_one_element 1 "block_0" (sample_indexer []) 0
           [0; 1; 2; 3; 4; 5; 6; 7] [1; 3; 5; 7] 5 fresh);
    [reflexivity | reflexivity | reflexivity | simpl; lia |].
  repeat (apply List.Forall_cons; [simpl; lia |]). apply List.Forall_nil.
Defined.

End FillFieldContainerColsExamples.

Section GhostedFieldVectorOutcomes.
Import Teuchos panzer.

(** The printing loop reads [sharedIndices[i]] for every position of
    [ghostedFields]: it reads past the end when the index list is shorter. *)
Lemma print_loop_run (sharedIndices ghostedFields : list Z) (s : TestState) :
  forall n start,
    (start <= length sharedIndices)%nat -> (start + n <= length ghostedFields)%nat ->
    for_range start n
      (fun i => at_ sharedIndices i ≫= fun _ => at_ ghostedFields i ≫= fun _ => mret tt) s
    = if decide (start + n <= length sharedIndices)%nat then Done tt s else Undefined.
Proof.
  induction n as [| n IH]; intros start H1 H2.
  - rewrite decide_True by lia. reflexivity.
  - cbn [for_range]. unfold bind at 1. rewrite bind_unfold. unfold at_ at 1.
    destruct (decide (start < length sharedIndices)%nat) as [Hlt | Hge].
    + destruct (lookup_lt_is_Some_2 sharedIndices start Hlt) as [x ->].
      rewrite bind_unfold. unfold at_ at 1.
      destruct (lookup_lt_is_Some_2 ghostedFields start) as [y ->]; [lia |].
      cbn [mret Test_ret ret]. rewrite IH by lia.
      destruct (decide (S start + n <= length sharedIndices)%nat);
        [rewrite decide_True by lia | rewrite decide_False by lia]; reflexivity.
    + rewrite lookup_ge_None_2 by lia. rewrite decide_False by lia. reflexivity.
Qed.

(** Runs a chain of comparisons of elements against literals. *)
Ltac run_expects :=
  repeat (rewrite bind_unfold, expect_run; simpl); rewrite ?expect_run; simpl.

Lemma rank0_outcome (v : list Z) (s : TestState) :
  ((length v < 14)%nat /\ GhostedFieldVector_rank0 v s = Undefined) \/
  ((14 <= length v)%nat /\
   exists s', GhostedFieldVector_rank0 v s = Done tt s' /\
              length (evaluated s') = (length (evaluated s) + 14)%nat).
Proof.
  unfold GhostedFieldVector_rank0.
  do 14 (destruct v as [| ? v];
         [left; split; [simpl; lia | run_expects; reflexivity] |]).
  right. split; [simpl; lia |]. run_expects.
  eexists. split; [reflexivity |]. simpl. rewrite !length_app. simpl. lia.
Qed.

Lemma rank1_outcome (v : list Z) (s : TestState) :
  ((length v < 12)%nat /\ GhostedFieldVector_rank1 v s = Undefined) \/
  ((12 <= length v)%nat /\
   exists s', GhostedFieldVector_rank1 v s = Done tt s' /\
              length (evaluated s') = (length (evaluated s) + 12)%nat).
Proof.
  unfold GhostedFieldVector_rank1.
  do 12 (destruct v as [| ? v];
         [left; split; [simpl; lia | run_expects; reflexivity] |]).
  right. split; [simpl; lia |]. run_expects.
  eexists. split; [reflexivity |]. simpl. rewrite !length_app. simpl. lia.
Qed.

(** The checks up to the branch on the rank. *)
Lemma checks_run (myRank : Z) (sharedIndices ghostedFields : list Z) (s : TestState) :
  GhostedFieldVector_checks myRank sharedIndices ghostedFields s
  = match min_element ghostedFields with
    | None => Undefined
    | Some smallest =>
        if decide (length ghostedFields <= length sharedIndices)%nat
        then rank_branch myRank ghostedFields
               (mkTestState
                  (success s && (size ghostedFields =? size sharedIndices)
                   && (smallest >? -1))
                  ((evaluated s ++ [(size ghostedFields, size sharedIndices)])
                   ++ [(smallest, -1)]))
        else Undefined
    end.
Proof.
  unfold GhostedFieldVector_checks. rewrite bind_unfold.
  unfold TEST_EQUALITY at 1, compared at 1. rewrite bind_unfold. unfold deref at 1.
  destruct (min_element ghostedFields) as [smallest |]; [| reflexivity].
  rewrite bind_unfold. unfold TEST_COMPARE_gt at 1, compared at 1.
  rewrite bind_unfold, print_loop_run by lia. cbn [Nat.add success evaluated].
  now destruct (decide (length ghostedFields <= length sharedIndices)%nat).
Qed.

(** X17. The checks of the first test have undefined behaviour exactly
    when the field vector is empty ([*min_element] of an empty range),
    when the index list is shorter than the field vector (the printing loop
    reads [sharedIndices[i]] although the size comparison failed), or when
    the field vector is shorter than the table of the rank. *)
Theorem GhostedFieldVector_checks_undefined (myRank : Z)
    (sharedIndices ghostedFields : list Z) (s : TestState) :
  GhostedFieldVector_checks myRank sharedIndices ghostedFields s = Undefined <->
  ghostedFields = [] \/
  (length sharedIndices < length ghostedFields)%nat \/
  (myRank = 0 /\ (length ghostedFields < 14)%nat) \/
  (myRank = 1 /\ (length ghostedFields < 12)%nat).
Proof.
  rewrite checks_run.
  destruct ghostedFields as [| x v]; [split; [now left | reflexivity] |].
  cbn [min_element].
  destruct (decide (length (x :: v) <= length sharedIndices)%nat) as [Hle | Hgt];
    [| split; [intros _; right; left; lia | reflexivity]].
  unfold rank_branch.
  destruct (Z.eqb_spec myRank 0) as [-> | H0]; [| destruct (Z.eqb_spec myRank 1) as [-> | H1]].
  - match goal with |- GhostedFieldVector_rank0 ?l ?t = _ <-> _ =>
      destruct (rank0_outcome l t) as [[Hlen ->] | [Hlen (s' & -> & _)]] end.
    + split; [intros _; right; right; left; split; [reflexivity | exact Hlen] | reflexivity].
    + split; [discriminate |]. intros [H | [H | [[_ H] | [H _]]]]; [discriminate H | lia ..].
  - match goal with |- GhostedFieldVector_rank1 ?l ?t = _ <-> _ =>
      destruct (rank1_outcome l t) as [[Hlen ->] | [Hlen (s' & -> & _)]] end.
    + split; [intros _; right; right; right; split; [reflexivity | exact Hlen] | reflexivity].
    + split; [discriminate |]. intros [H | [H | [[H _] | [_ H]]]]; [discriminate H | lia ..].
  - split; [discriminate |]. intros [H | [H | [[H _] | [H _]]]]; [discriminate H | lia ..].
Qed.

(** X18. A comparison that fails does not stop the test: whenever the
    checks run to their end, all 16 comparisons of rank 0, or all 14 of
    rank 1, were evaluated, whatever their results.  The checks throw only
    for another rank, after the first two comparisons, and what they throw
    is the [TEUCHOS_ASSERT(false)] of line 97. *)
Theorem GhostedFieldVector_checks_evaluated (myRank : Z)
    (sharedIndices ghostedFields : list Z) (s : TestState) :
  match GhostedFieldVector_checks myRank sharedIndices ghostedFields s with
  | Done _ s' =>
      (myRank = 0 /\ length (evaluated s') = (length (evaluated s) + 16)%nat) \/
      (myRank = 1 /\ length (evaluated s') = (length (evaluated s) + 14)%nat)
  | Threw e s' =>
      myRank <> 0 /\ myRank <> 1 /\ e = logic_error 97 "false" /\
      length (evaluated s') = (length (evaluated s) + 2)%nat
  | Undefined => True
  end.
Proof.
  rewrite checks_run.
  destruct (min_element ghostedFields) as [smallest |]; [| exact I].
  destruct (decide (length ghostedFields <= length sharedIndices)%nat); [| exact I].
  unfold rank_branch.
  destruct (Z.eqb_spec myRank 0) as [-> | H0]; [| destruct (Z.eqb_spec myRank 1) as [-> | H1]].
  - match goal with |- match GhostedFieldVector_rank0 ?l ?t with _ => _ end =>
      destruct (rank0_outcome l t) as [[_ ->] | [_ (s' & -> & Hcount)]] end; [exact I |].
    left. split; [reflexivity |]. rewrite Hcount. cbn [evaluated].
    rewrite !length_app. simpl. lia.
  - match goal with |- match GhostedFieldVector_rank1 ?l ?t with _ => _ end =>
      destruct (rank1_outcome l t) as [[_ ->] | [_ (s' & -> & Hcount)]] end; [exact I |].
    right. split; [reflexivity |]. rewrite Hcount. cbn [evaluated].
    rewrite !length_app. simpl. lia.
  - cbn [TEUCHOS_ASSERT evaluated]. split; [exact H0 | split; [exact H1 | split; [reflexivity |]]].
    rewrite !length_app. simpl. lia.
Qed.

(** X16. When the first test passes in a run with two processes: exactly
    when the three calls return, the two vectors have the same length, no
    entry of the field vector is negative, and the field vector starts with
    the table of the rank, which is 0 or 1.  What follows the table is not
    compared. *)
Theorem GhostedFieldVector_passes_iff (lib : Library) (myRank : Z) :
  passes (GhostedFieldVector lib myRank 2) <->
  exists globalIndexer sharedIndices ghostedFields rest,
    new_UniqueGlobalIndexer lib myRank 2 = Ok globalIndexer /\
    getOwnedAndSharedIndices globalIndexer = Ok sharedIndices /\
    buildGhostedFieldVector lib globalIndexer = Ok ghostedFields /\
    length ghostedFields = length sharedIndices /\
    Forall (fun fieldNum => 0 <= fieldNum) ghostedFields /\
    ((myRank = 0 /\ ghostedFields = [0; 1; 0; 1; 0; 1; 0; 1; 0; 1; 0; 0; 0; 1] ++ rest) \/
     (myRank = 1 /\ ghostedFields = [0; 1; 0; 1; 0; 1; 0; 1; 0; 0; 0; 0] ++ rest)).
Proof.
  split.
  - intros (s' & Hrun & Hs'). unfold GhostedFieldVector in Hrun.
    rewrite assert_holds in Hrun by reflexivity.
    apply bind_done_inv in Hrun as (ugi & s1 & Hnew & Hrun). apply call_inv in Hnew as [Hnew ->].
    apply bind_done_inv in Hrun as (idx & s2 & Hidx & Hrun). apply call_inv in Hidx as [Hidx ->].
    apply bind_done_inv in Hrun as (v & s3 & Hv & Hrun). apply call_inv in Hv as [Hv ->].
    assert (Hval : validated myRank idx v) by (exists s'; auto).
    pose proof (validated_inv _ _ _ Hval)
      as (Hlen & (smallest & Hmin & Hgt) & t & t' & _ & Hbranch & Ht').
    destruct (rank_branch_accepts _ _ _ _ Hbranch Ht') as [Hrank [rest Hrest]].
    exists ugi, idx, v, rest. split_and!; try assumption.
    + eapply Forall_impl; [apply (min_element_lower_bound _ _ Hmin) |].
      intros x Hx. simpl in Hx. lia.
    + destruct Hrank as [-> | ->]; [left | right]; (split; [reflexivity | exact Hrest]).
  - intros (ugi & idx & v & rest & Hnew & Hidx & Hv & Hlen & Hsign & Htable).
    assert (Hval : validated myRank idx v).
    { assert (Hrank : myRank = 0 \/ myRank = 1) by tauto.
      assert (Hprefix : v = expected_ghostedFields myRank ++ rest).
      { destruct Htable as [[-> ->] | [-> ->]]; reflexivity. }
      destruct (min_element v) as [smallest |] eqn:Hmin.
      - apply (validated_intro myRank idx v smallest Hlen Hmin).
        + apply min_element_member in Hmin. rewrite List.Forall_forall in Hsign.
          specialize (Hsign smallest Hmin). lia.
        + intros s Hs. rewrite Hprefix. now apply rank_branch_passes.
      - destruct Htable as [[_ ->] | [_ ->]]; discriminate Hmin. }
    destruct Hval as (s' & Hrun & Hs'). exists s'. split; [| exact Hs'].
    unfold GhostedFieldVector. rewrite assert_holds by reflexivity.
    rewrite bind_unfold, Hnew. cbn [call]. rewrite bind_unfold, Hidx. cbn [call].
    rewrite bind_unfold, Hv. cbn [call]. exact Hrun.
Qed.

End GhostedFieldVectorOutcomes.

Section PanzerOtherRanks.
Import Teuchos panzer.

(** A test body that ran to its end ran each of its statements to its end:
    goes down to the last statement. *)
Ltac last_statement H :=
  repeat (apply bind_done_inv in H as (? & ? & _ & H)).

Ltac neither_rank H H0 H1 :=
  rewrite (proj2 (Z.eqb_neq _ _) H0), (proj2 (Z.eqb_neq _ _) H1) in H; discriminate H.

Lemma GhostedFieldVector_other_rank (lib : Library) (myRank : Z) (s s' : TestState) :
  myRank <> 0 -> myRank <> 1 -> GhostedFieldVector lib myRank 2 s <> Done tt s'.
Proof.
  intros H0 H1 H. unfold GhostedFieldVector in H. rewrite assert_holds in H by reflexivity.
  do 3 (apply bind_done_inv in H as (? & ? & _ & H)).
  unfold GhostedFieldVector_checks in H. last_statement H.
  unfold rank_branch in H. neither_rank H H0 H1.
Qed.

Lemma updateGhostedDataVector_other_rank (lib : Library) (myRank : Z) (s s' : TestState) :
  myRank <> 0 -> myRank <> 1 -> updateGhostedDataVector lib myRank 2 s <> Done tt s'.
Proof.
  intros H0 H1 H. unfold updateGhostedDataVector in H.
  rewrite assert_holds in H by reflexivity. last_statement H. neither_rank H H0 H1.
Qed.

Lemma ArrayToFieldVector_ghost_other_rank (lib : Library) (myRank : Z) (s s' : TestState) :
  myRank <> 0 -> myRank <> 1 -> ArrayToFieldVector_ghost lib myRank 2 s <> Done tt s'.
Proof.
  intros H0 H1 H. unfold ArrayToFieldVector_ghost in H.
  rewrite assert_holds in H by reflexivity. last_statement H. neither_rank H H0 H1.
Qed.

Lemma ArrayToFieldVector_test_other_rank (lib : Library) (myRank : Z) (s s' : TestState) :
  myRank <> 0 -> myRank <> 1 -> ArrayToFieldVector_test lib myRank 2 s <> Done tt s'.
Proof.
  intros H0 H1 H. unfold ArrayToFieldVector_test in H.
  rewrite assert_holds in H by reflexivity. last_statement H. neither_rank H H0 H1.
Qed.

Lemma ArrayToFieldVector_multicol_other_rank (lib : Library) (myRank : Z)
    (s s' : TestState) :
  myRank <> 0 -> myRank <> 1 -> ArrayToFieldVector_multicol lib myRank 2 s <> Done tt s'.
Proof.
  intros H0 H1 H. unfold ArrayToFieldVector_multicol in H. cbv zeta in H.
  rewrite assert_holds in H by reflexivity.
  do 9 (apply bind_done_inv in H as (? & ? & _ & H)).
  apply (bind_done_inv (ArrayToFieldVector_multicol_column _ _ _ 0%nat))
    in H as ([] & s1 & Hcolumn & _).
  unfold ArrayToFieldVector_multicol_column in Hcolumn. last_statement Hcolumn.
  neither_rank Hcolumn H0 H1.
Qed.

Lemma tame_throws_only {A} (line : nat) (m : Test A) :
  tame m -> throws_only (library_or_final_assert line) m.
Proof.
  intros Hm s. specialize (Hm s). destruct (m s) as [a s' | e s' |]; [exact I | | exact I].
  now left.
Qed.

Lemma throws_only_bind {A B} (allowed : Exn -> Prop) (m : Test A) (k : A -> Test B) :
  throws_only allowed m -> (forall a, throws_only allowed (k a)) ->
  throws_only allowed (m ≫= k).
Proof.
  intros Hm Hk s. rewrite bind_unfold. specialize (Hm s).
  destruct (m s) as [a s' | e s' |]; [apply Hk | exact Hm | exact I].
Qed.

Lemma throws_only_for_range (allowed : Exn -> Prop) (body : nat -> Test unit) :
  (forall i, throws_only allowed (body i)) ->
  forall n start, throws_only allowed (for_range start n body).
Proof.
  intros Hbody. induction n as [| n IH]; intros start; cbn [for_range].
  - intros s. exact I.
  - apply (throws_only_bind allowed (body start)); auto.
Qed.

Lemma throws_only_final_assert (line : nat) :
  throws_only (library_or_final_assert line) (TEUCHOS_ASSERT line "false" false).
Proof. intros s. now right. Qed.

(** Splits a body into its statements; the tame ones throw only what the
    library threw. *)
Ltac throws_only_steps :=
  repeat lazymatch goal with
    | |- throws_only _ (_ ≫= _) => apply throws_only_bind; [ | intros ? ]
    | |- throws_only _ _ => solve [ apply tame_throws_only; tame_steps ]
    end.

(** On a rank other than 0 and 1 the branch on the rank is its final
    assertion. *)
Ltac final_assertion H0 H1 :=
  rewrite (proj2 (Z.eqb_neq _ _) H0), (proj2 (Z.eqb_neq _ _) H1);
  apply throws_only_final_assert.

Lemma GhostedFieldVector_throws (lib : Library) (myRank : Z) :
  myRank <> 0 -> myRank <> 1 ->
  throws_only (library_or_final_assert 97) (GhostedFieldVector lib myRank 2).
Proof.
  intros H0 H1. unfold GhostedFieldVector. throws_only_steps.
  unfold GhostedFieldVector_checks. throws_only_steps.
  - apply tame_throws_only, tame_for_range. intros i. tame_steps.
  - unfold rank_branch. final_assertion H0 H1.
Qed.

Lemma updateGhostedDataVector_throws (lib : Library) (myRank : Z) :
  myRank <> 0 -> myRank <> 1 ->
  throws_only (library_or_final_assert 213) (updateGhostedDataVector lib myRank 2).
Proof.
  intros H0 H1. unfold updateGhostedDataVector. throws_only_steps. final_assertion H0 H1.
Qed.

Lemma ArrayToFieldVector_ghost_throws (lib : Library) (myRank : Z) :
  myRank <> 0 -> myRank <> 1 ->
  throws_only (library_or_final_assert 290) (ArrayToFieldVector_ghost lib myRank 2).
Proof.
  intros H0 H1. unfold ArrayToFieldVector_ghost. throws_only_steps. final_assertion H0 H1.
Qed.

Lemma ArrayToFieldVector_test_throws (lib : Library) (myRank : Z) :
  myRank <> 0 -> myRank <> 1 ->
  throws_only (library_or_final_assert 357) (ArrayToFieldVector_test lib myRank 2).
Proof.
  intros H0 H1. unfold ArrayToFieldVector_test. throws_only_steps. final_assertion H0 H1.
Qed.

Lemma ArrayToFieldVector_multicol_throws (lib : Library) (myRank : Z) :
  myRank <> 0 -> myRank <> 1 ->
  throws_only (library_or_final_assert 429) (ArrayToFieldVector_multicol lib myRank 2).
Proof.
  intros H0 H1. unfold ArrayToFieldVector_multicol. cbv zeta. throws_only_steps.
  apply throws_only_for_range. intros c.
  unfold ArrayToFieldVector_multicol_column. throws_only_steps. final_assertion H0 H1.
Qed.

(** A test that never runs to its end and throws only the allowed
    exceptions, read as the outcome of a run. *)
Lemma other_rank_outcome (test : Test unit) (line : nat) (s : TestState) :
  (forall s', test s <> Done tt s') ->
  throws_only (library_or_final_assert line) test ->
  match test s with
  | Done _ _ => False
  | Threw e _ => (exists what, e = library_error what) \/ e = logic_error line "false"
  | Undefined => True
  end.
Proof.
  intros Hend Hthrows. specialize (Hthrows s).
  destruct (test s) as [[] s' | e s' |]; [now apply (Hend s') | exact Hthrows | exact I].
Qed.

(** X19. In a run with two processes no unit test of the file runs to its
    end on a rank other than 0 and 1, and the only assertion it can throw
    is its final [TEUCHOS_ASSERT(false)] (lines 97, 213, 290, 357, 429):
    the test stops with what a library routine threw or with that
    assertion, or it reads or writes out of range before. *)
Theorem unit_tests_need_rank_0_or_1 :
  Forall2 (fun (test : Library -> Z -> Z -> Test unit) (lines : nat * nat) =>
             forall (lib : Library) (myRank : Z) (s : TestState),
               myRank <> 0 -> myRank <> 1 ->
               match test lib myRank 2 s with
               | Done _ _ => False
               | Threw e _ =>
                   (exists what, e = library_error what) \/
                   e = logic_error (snd lines) "false"
               | Undefined => True
               end)
          (map snd unit_tests) assert_lines.
Proof.
  unfold unit_tests, assert_lines. cbn [map snd].
  apply List.Forall2_cons;
    [intros lib r s H0 H1; apply other_rank_outcome;
     [intros s'; now apply GhostedFieldVector_other_rank
     | now apply GhostedFieldVector_throws] |].
  apply List.Forall2_cons;
    [intros lib r s H0 H1; apply other_rank_outcome;
     [intros s'; now apply updateGhostedDataVector_other_rank
     | now apply updateGhostedDataVector_throws] |].
  apply List.Forall2_cons;
    [intros lib r s H0 H1; apply other_rank_outcome;
     [intros s'; now apply ArrayToFieldVector_ghost_other_rank
     | now apply ArrayToFieldVector_ghost_throws] |].
  apply List.Forall2_cons;
    [intros lib r s H0 H1; apply other_rank_outcome;
     [intros s'; now apply ArrayToFieldVector_test_other_rank
     | now apply ArrayToFieldVector_test_throws] |].
  apply List.Forall2_cons;
    [intros lib r s H0 H1; apply other_rank_outcome;
     [intros s'; now apply ArrayToFieldVector_multicol_other_rank
     | now apply ArrayToFieldVector_multicol_throws] |].
  apply List.Forall2_nil.
Qed.


End PanzerOtherRanks.


Section MulticolColumns.
Import Teuchos panzer.

Ltac run_expects :=
  repeat (rewrite bind_unfold, expect_run; simpl); rewrite ?expect_run; simpl.

Lemma eqb_shift (c x e : Z) : (x - c =? e) = (x =? e + c).
Proof. destruct (Z.eqb_spec (x - c) e), (Z.eqb_spec x (e + c)); lia || reflexivity. Qed.

(** X21. The checks of the multi-column test on column [c] give the
    verdict that the checks of the single-column test give on the same
    column shifted down by [c]: the tables of lines 398-424 are those of
    lines 326-347 plus the column number. *)
Theorem multicol_column_is_shifted (reducedUDataVector reducedTDataVector : MultiVector)
    (fields_u fields_t : list Z) (c : nat) (s : TestState) :
  same_verdict
    (ArrayToFieldVector_multicol_rank0 reducedUDataVector reducedTDataVector
       fields_u fields_t c s)
    (ArrayToFieldVector_rank0 reducedUDataVector reducedTDataVector
       ((fun x => x - Z.of_nat c) <$> fields_u) ((fun x => x - Z.of_nat c) <$> fields_t) s)
  /\
  same_verdict
    (ArrayToFieldVector_multicol_rank1 reducedUDataVector reducedTDataVector
       fields_u fields_t c s)
    (ArrayToFieldVector_rank1 reducedUDataVector reducedTDataVector
       ((fun x => x - Z.of_nat c) <$> fields_u) ((fun x => x - Z.of_nat c) <$> fields_t) s).
Proof.
  split.
  - unfold ArrayToFieldVector_multicol_rank0, ArrayToFieldVector_rank0.
    rewrite !(bind_unfold (TEST_EQUALITY _ _)). unfold TEST_EQUALITY, compared.
    do 6 (destruct fields_u as [| ? fields_u]; [run_expects; exact I |]).
    do 5 (destruct fields_t as [| ? fields_t]; [run_expects; exact I |]).
    run_expects. now rewrite !eqb_shift.
  - unfold ArrayToFieldVector_multicol_rank1, ArrayToFieldVector_rank1.
    rewrite !(bind_unfold (TEST_EQUALITY _ _)). unfold TEST_EQUALITY, compared.
    do 4 (destruct fields_u as [| ? fields_u]; [run_expects; exact I |]).
    do 1 (destruct fields_t as [| ? fields_t]; [run_expects; exact I |]).
    run_expects. now rewrite !eqb_shift.
Qed.

End MulticolColumns.
